(** * Antenna S-parameter analysis (main.py): a shallow embedding

    The script loads two-port Touchstone files through scikit-rf, plots the
    S11 traces and prints, for every antenna, the sample nearest a target
    frequency together with an impedance-matching assessment.

    Numbers.  The script computes on IEEE doubles.  Here a finite double is
    an exact real; the two features of doubles that the script can observe
    are kept: the sign of a zero (numpy's arctan2 reads it) and the special
    results -inf and nan of log10.  Rounding is not modelled.

    Two parts of the specification have no code in the script: the
    Touchstone parser, which the script leaves to scikit-rf, and the
    operation [trace] with its lazy sequence, of which the script has the
    S11 instance inlined in its plotting loops.  Their definitions are
    marked as modelled from the spec. *)

From Stdlib Require Import String Ascii.
From Stdlib Require Import Reals Lra Lia List Bool Arith ZArith Permutation.
From Stdlib Require Import Sorted.
Import ListNotations.

Local Open Scope R_scope.

(** ** Exceptions and results *)

(** The ways in which the text of a Touchstone file can be refused. *)
Inductive format_error : Type :=
| MissingHeader
| MalformedDataLine (line_number : nat)
| PortCountMismatch
| UnsupportedParameterType
| NonMonotonicFrequency.

Inductive exn : Type :=
| ValueError
| IndexError
| TypeError
| ZeroDivisionError
| IoError
| FormatError (e : format_error)
| OtherError (code : nat).

Inductive result (A : Type) : Type :=
| Ok (a : A)
| Raise (e : exn).

Arguments Ok {A} a.
Arguments Raise {A} e.

Definition bind {A B : Type} (m : result A) (k : A -> result B) : result B :=
  match m with
  | Ok a => k a
  | Raise e => Raise e
  end.

Notation "x <- m ;; k" := (bind m (fun x => k))
  (at level 61, m at next level, right associativity).

(** ** Numbers *)

Module Numeric.

(** A finite double: its value, and the sign bit it carries when the
    value is zero. *)
Record float : Type := Float { value : R; zero_sign : bool }.

Definition signbit (x : float) : bool :=
  if Rlt_dec (value x) 0 then true
  else if Rlt_dec 0 (value x) then false
  else zero_sign x.

Definition pos (r : R) : float := Float r false.
Definition neg_zero : float := Float 0 true.

(** A complex sample of an S-parameter. *)
Record complex : Type := Complex { real : float; imag : float }.

(** The result of a floating-point operation that may leave the finite
    numbers. *)
Inductive xfloat : Type :=
| NaN
| NegInf
| Fin (r : R).

(** [np.abs] on a complex number. *)
Definition np_abs (z : complex) : R :=
  sqrt (value (real z) * value (real z) + value (imag z) * value (imag z)).

(** [np.log10]: -inf at zero, nan below. *)
Definition np_log10 (x : R) : xfloat :=
  if Rlt_dec 0 x then Fin (ln x / ln 10)
  else if Rlt_dec x 0 then NaN
  else NegInf.

(** [c * x] for a positive finite constant [c]. *)
Definition scale (c : R) (x : xfloat) : xfloat :=
  match x with
  | NaN => NaN
  | NegInf => NegInf
  | Fin r => Fin (c * r)
  end.

(** [x < c] for a finite constant [c]; false on nan. *)
Definition xlt (x : xfloat) (c : R) : bool :=
  match x with
  | NaN => false
  | NegInf => true
  | Fin r => if Rlt_dec r c then true else false
  end.

(** [np.arctan2 y x] on finite doubles, with the C99 treatment of signed
    zeros that numpy documents. *)
Definition np_arctan2 (y x : float) : R :=
  if Rlt_dec 0 (value x) then atan (value y / value x)
  else if Rlt_dec (value x) 0 then
    if signbit y then atan (value y / value x) - PI
    else atan (value y / value x) + PI
  else if Rlt_dec 0 (value y) then PI / 2
  else if Rlt_dec (value y) 0 then - (PI / 2)
  else if signbit x then (if signbit y then - PI else PI)
  else 0.

(** [np.angle z deg]: [arctan2 (imag, real)], times [180/pi] when [deg]. *)
Definition np_angle (z : complex) (deg : bool) : R :=
  let a := np_arctan2 (imag z) (real z) in
  if deg then a * (180 / PI) else a.

End Numeric.
Import Numeric.

(** ** The impedance-matching assessment (lines 136-142) *)

Inductive MatchQuality : Type := Good | Moderate | Poor.

Definition classify_matching (magnitude_db : xfloat) : MatchQuality :=
  if xlt magnitude_db (-10) then Good
  else if xlt magnitude_db (-6) then Moderate
  else Poor.

(** The text printed for each assessment. *)
Definition assessment (q : MatchQuality) : string :=
  match q with
  | Good => "Good impedance matching"
  | Moderate => "Moderate impedance matching"
  | Poor => "Poor impedance matching"
  end.

(** ** Console output and the script's computations

    Every [print], [savefig] and [show] of the script is an event; a
    computation yields the events it emitted, in order, and either a value
    or the exception that ended it. *)

Module Skrf.

Inductive port : Type := P1 | P2.

(** The scattering matrix of a two-port at one frequency. *)
Record smatrix : Type :=
  SMatrix { s_11 : complex; s_12 : complex; s_21 : complex; s_22 : complex }.

Definition entry (m : smatrix) (i j : port) : complex :=
  match i, j with
  | P1, P1 => s_11 m
  | P1, P2 => s_12 m
  | P2, P1 => s_21 m
  | P2, P2 => s_22 m
  end.

(** What the script reads of an [rf.Network]: the frequency array [f]
    (in Hz) and the array [s] of scattering matrices. *)
Record Network : Type := { f : list R; s : list smatrix }.

(** [ntwk.s11.s.flatten()] and its siblings for the other port pairs. *)
Definition s_flat (ntwk : Network) (i j : port) : list complex :=
  map (fun m => entry m i j) (s ntwk).

(** scikit-rf keeps the two arrays of a network equally long. *)
Definition well_formed (ntwk : Network) : Prop :=
  length (s ntwk) = length (f ntwk).

End Skrf.
Import Skrf(port, P1, P2, Network, s_flat).

Record TracePoint : Type :=
  { frequency_hz : R; magnitude_db : xfloat; phase_deg : R }.

Record Report : Type :=
  { antenna : nat; point : TracePoint; quality : MatchQuality }.

Inductive event : Type :=
| Loaded (name : string)
| ErrorLoading (name : string) (e : exn)
| NoFilesFound
| AnalysisHeader (target_freq : R)
| AntennaReport (r : Report)
| SavedFigure (name : string)
| ShowPlots.

Definition io (A : Type) : Type := (list event * result A)%type.

Definition ret {A : Type} (a : A) : io A := ([], Ok a).

Definition print (e : event) : io unit := ([e], Ok tt).

Definition lift {A : Type} (r : result A) : io A := ([], r).

Definition io_bind {A B : Type} (m : io A) (k : A -> io B) : io B :=
  match snd m with
  | Ok a => (fst m ++ fst (k a), snd (k a))
  | Raise e => (fst m, Raise e)
  end.

Notation "x <-- m ;; k" := (io_bind m (fun x => k))
  (at level 61, m at next level, right associativity).

(** ** Derived quantities of one sample (lines 45, 58, 128, 129) *)

Definition magnitude_of (s11 : complex) : xfloat :=
  scale 20 (np_log10 (np_abs s11)).

Definition phase_of (s11 : complex) : R := np_angle s11 true.

Definition trace_point (freq : R) (z : complex) : TracePoint :=
  {| frequency_hz := freq;
     magnitude_db := magnitude_of z;
     phase_deg := phase_of z |}.

(** ** The nearest sample (lines 123-125) *)

(** [a[i]]. *)
Definition getitem {A : Type} (a : list A) (i : nat) : result A :=
  match nth_error a i with
  | Some x => Ok x
  | None => Raise IndexError
  end.

(** The scan behind [ndarray.argmin]: the running minimum is replaced only
    by a strictly smaller element. *)
Fixpoint argmin_scan (a : list R) (i best_i : nat) (best : R) : nat :=
  match a with
  | [] => best_i
  | x :: rest =>
      if Rlt_dec x best then argmin_scan rest (S i) i x
      else argmin_scan rest (S i) best_i best
  end.

(** [a.argmin()]; numpy raises ValueError on an empty array. *)
Definition argmin (a : list R) : result nat :=
  match a with
  | [] => Raise ValueError
  | x :: rest => Ok (argmin_scan rest 1 0 x)
  end.

(** [np.abs(ntwk.f - target_freq)]. *)
Definition distances (ntwk : Network) (target_freq : R) : list R :=
  map (fun x => Rabs (x - target_freq)) (Skrf.f ntwk).

(** The index, the frequency and the S11 sample the analysis reads. *)
Definition nearest (ntwk : Network) (target_freq : R)
  : result (nat * R * complex) :=
  freq_idx <- argmin (distances ntwk target_freq) ;;
  freq <- getitem (Skrf.f ntwk) freq_idx ;;
  s11 <- getitem (s_flat ntwk P1 P1) freq_idx ;;
  Ok (freq_idx, freq, s11).

(** ** analyze_frequency_response (lines 114-142) *)

(** One turn of the loop for the antenna at position [i]. *)
Definition analyze_one (i : nat) (ntwk : Network) (target_freq : R)
  : result Report :=
  found <- nearest ntwk target_freq ;;
  let '(_, freq, s11) := found in
  let p := trace_point freq s11 in
  Ok {| antenna := S i;
        point := p;
        quality := classify_matching (magnitude_db p) |}.

Fixpoint analyze_loop (i : nat) (networks : list Network) (target_freq : R)
  : io unit :=
  match networks with
  | [] => ret tt
  | ntwk :: rest =>
      r <-- lift (analyze_one i ntwk target_freq) ;;
      _ <-- print (AntennaReport r) ;;
      analyze_loop (S i) rest target_freq
  end.

Definition analyze_frequency_response (networks : list Network)
  (target_freq : R) : io unit :=
  _ <-- print (AnalysisHeader target_freq) ;;
  analyze_loop 0 networks target_freq.

(** The reports among the events of a run. *)
Definition reports (log : list event) : list Report :=
  flat_map (fun e => match e with AntennaReport r => [r] | _ => [] end) log.

(** ** Loading the files of a directory (lines 7-28)

    A directory is the list of its entry names, in the order the system
    lists them; a name is a string of bytes, of which the ASCII digits
    count as digits.  The parser [rf.Network] belongs to scikit-rf; it is
    a parameter that, for a file name, returns a network or raises. *)

Module Files.

Definition isdigit (c : ascii) : bool :=
  (48 <=? nat_of_ascii c)%nat && (nat_of_ascii c <=? 57)%nat.

Definition digit_value (c : ascii) : Z := Z.of_nat (nat_of_ascii c - 48).

(** [int(text)] on a text without sign, blanks or underscores: it raises
    ValueError on the empty text and on any character that is no digit. *)
Definition int (text : list ascii) : result Z :=
  match text with
  | [] => Raise ValueError
  | _ :: _ =>
      if forallb isdigit text
      then Ok (fold_left (fun acc c => (10 * acc + digit_value c)%Z) text 0%Z)
      else Raise ValueError
  end.

(** [name.rfind('.')], counting from [i]. *)
Fixpoint rfind_dot (name : list ascii) (i : nat) : option nat :=
  match name with
  | [] => None
  | c :: rest =>
      match rfind_dot rest (S i) with
      | Some j => Some j
      | None => if Ascii.eqb c "." then Some i else None
      end
  end.

(** [Path(x).stem], from the final component [name] of the path. *)
Definition stem (name : string) : string :=
  let l := list_ascii_of_string name in
  match rfind_dot l 0 with
  | Some i =>
      if (0 <? i)%nat && (i <? List.length l - 1)%nat
      then string_of_list_ascii (firstn i l)
      else name
  | None => name
  end.

(** The pattern [antenna*.s2p]. *)
Definition fnmatch (name : string) : bool :=
  prefix "antenna" name
  && String.eqb (substring (String.length name - 4) 4 name) ".s2p"
  && (11 <=? String.length name)%nat.

Definition glob (directory : list string) : list string :=
  filter fnmatch directory.

(** The sort key of line 16. *)
Definition sort_key (x : string) : result Z :=
  int (filter isdigit (list_ascii_of_string (stem x))).

(** [list.sort(key=...)] first computes the key of every element, and
    gives up if one of them raises. *)
Fixpoint with_keys (files : list string) : result (list (Z * string)) :=
  match files with
  | [] => Ok []
  | x :: rest =>
      k <- sort_key x ;;
      keyed <- with_keys rest ;;
      Ok ((k, x) :: keyed)
  end.

Fixpoint insert (x : Z * string) (sorted : list (Z * string))
  : list (Z * string) :=
  match sorted with
  | [] => [x]
  | y :: rest =>
      if (fst x <=? fst y)%Z then x :: y :: rest else y :: insert x rest
  end.

(** A stable sort by key. *)
Fixpoint sort (keyed : list (Z * string)) : list (Z * string) :=
  match keyed with
  | [] => []
  | x :: rest => insert x (sort rest)
  end.

Definition sort_by_number (files : list string) : result (list string) :=
  keyed <- with_keys files ;;
  Ok (map snd (sort keyed)).

End Files.

Definition reader : Type := string -> result Network.

Fixpoint load_loop (rf_Network : reader) (s2p_files : list string)
  (networks : list Network) : io (list Network) :=
  match s2p_files with
  | [] => ret networks
  | file :: rest =>
      match rf_Network file with
      | Ok network =>
          _ <-- print (Loaded file) ;;
          load_loop rf_Network rest (networks ++ [network])
      | Raise e =>
          _ <-- print (ErrorLoading file e) ;;
          load_loop rf_Network rest networks
      end
  end.

Definition load_antenna_files (rf_Network : reader) (directory : list string)
  : io (list Network) :=
  s2p_files <-- lift (Files.sort_by_number (Files.glob directory)) ;;
  load_loop rf_Network s2p_files [].

(** ** The figures (lines 30-89)

    Of a figure only the plotted data is kept: per antenna a line with its
    x and y data and the number in its label. *)

Record Line (Y : Type) : Type :=
  { xdata : list R; ydata : list Y; label : nat }.

Arguments xdata {Y} l.
Arguments ydata {Y} l.
Arguments label {Y} l.

Record Figure : Type :=
  { ax1 : list (Line xfloat); ax2 : list (Line R) }.

(** [ax.plot(x, y)] refuses data of different lengths. *)
Definition ax_plot {Y : Type} (x : list R) (y : list Y) (i : nat)
  : result (Line Y) :=
  if (List.length x =? List.length y)%nat
  then Ok {| xdata := x; ydata := y; label := S i |}
  else Raise ValueError.

(** [for i, x in enumerate(l)], collecting what each turn draws. *)
Fixpoint for_enumerate {A B : Type} (body : nat -> A -> result B) (i : nat)
  (l : list A) : result (list B) :=
  match l with
  | [] => Ok []
  | x :: rest =>
      b <- body i x ;;
      bs <- for_enumerate body (S i) rest ;;
      Ok (b :: bs)
  end.

Definition freq_ghz (ntwk : Network) : list R :=
  map (fun x => x / 1e9) (Skrf.f ntwk).

Definition s11_mag_db (ntwk : Network) : list xfloat :=
  map magnitude_of (s_flat ntwk P1 P1).

Definition s11_phase (ntwk : Network) : list R :=
  map phase_of (s_flat ntwk P1 P1).

Definition plot_s_parameters_multi (networks : list Network) : result Figure :=
  magnitudes <-
    for_enumerate (fun i ntwk => ax_plot (freq_ghz ntwk) (s11_mag_db ntwk) i)
      0 networks ;;
  phases <-
    for_enumerate (fun i ntwk => ax_plot (freq_ghz ntwk) (s11_phase ntwk) i)
      0 networks ;;
  Ok {| ax1 := magnitudes; ax2 := phases |}.

Record SmithFigure : Type :=
  { n_rows : Z; n_cols : Z; charts : list (Z * list complex) }.

(** [plt.subplot(n_rows, n_cols, index)] refuses an index outside the grid. *)
Definition subplot (rows cols index : Z) : result Z :=
  if ((1 <=? index) && (index <=? rows * cols))%Z then Ok index
  else Raise ValueError.

(** [a // b] on integers. *)
Definition floordiv (a b : Z) : result Z :=
  if (b =? 0)%Z then Raise ZeroDivisionError else Ok (a / b)%Z.

Definition plot_smith_charts (networks : list Network) : result SmithFigure :=
  let n_antennas := Z.of_nat (List.length networks) in
  let cols := Z.min 3 n_antennas in
  q <- floordiv (n_antennas - 1) cols ;;
  let rows := (q + 1)%Z in
  drawn <-
    for_enumerate
      (fun i ntwk =>
         ax <- subplot rows cols (Z.of_nat i + 1) ;;
         Ok (ax, s_flat ntwk P1 P1))
      0 networks ;;
  Ok {| n_rows := rows; n_cols := cols; charts := drawn |}.

(** ** visualize_all_antennas and the script body (lines 91-112, 144-159) *)

Definition is_empty {A : Type} (l : list A) : bool :=
  match l with
  | [] => true
  | _ :: _ => false
  end.

(** The bare [return] of line 100 hands [None] to the caller. *)
Definition visualize_all_antennas (rf_Network : reader)
  (directory : list string) (save_plots : bool)
  : io (option (Figure * SmithFigure)) :=
  networks <-- load_antenna_files rf_Network directory ;;
  if is_empty networks then
    _ <-- print NoFilesFound ;;
    ret None
  else
    s_param_fig <-- lift (plot_s_parameters_multi networks) ;;
    smith_fig <-- lift (plot_smith_charts networks) ;;
    _ <-- (if save_plots then
             _ <-- print (SavedFigure "s_parameters.png") ;;
             print (SavedFigure "smith_charts.png")
           else ret tt) ;;
    ret (Some (s_param_fig, smith_fig)).

(** [a, b = value]: unpacking [None] raises TypeError. *)
Definition unpack2 {A B : Type} (value : option (A * B)) : result (A * B) :=
  match value with
  | Some both => Ok both
  | None => Raise TypeError
  end.

Definition main (rf_Network : reader) (data_dir : list string) : io unit :=
  returned <-- visualize_all_antennas rf_Network data_dir true ;;
  _ <-- lift (unpack2 returned) ;;
  networks <-- load_antenna_files rf_Network data_dir ;;
  _ <-- (if is_empty networks then ret tt
         else analyze_frequency_response networks 2.4e9) ;;
  print ShowPlots.

(** ** Traces *)

(** Modelled from the spec: the sequence of points that the operation
    [trace] of section 4.2 yields for a network and a port pair.  The
    script has no such function; it has the instance for S11 only, inlined
    in the two loops of [plot_s_parameters_multi] (lines 43-60), whose
    lines hold these points for the pair (1, 1). *)

Definition trace (ntwk : Network) (i j : port) : list TracePoint :=
  map (fun p => trace_point (fst p) (snd p))
    (combine (Skrf.f ntwk) (s_flat ntwk i j)).

(** Modelled from the spec: the lazy sequence of section 4.2 as a cursor
    over the network, "finite, restartable (re-iterable without side
    effects)"; the script works on whole arrays and has no iterator.  A
    cursor holds the network it reads, the port pair and the position of
    the next sample. *)
Record cursor : Type :=
  { network_of : Network; port_out : port; port_in : port; position : nat }.

(** Modelled from the spec: "port_out, port_in in {1,2}; invalid indices
    fail with IndexError". *)
Definition port_of (index : nat) : result port :=
  match index with
  | 1%nat => Ok P1
  | 2%nat => Ok P2
  | _ => Raise IndexError
  end.

(** Modelled from the spec: the start of a traversal of [trace]. *)
Definition trace_open (ntwk : Network) (out_index in_index : nat)
  : result cursor :=
  i <- port_of out_index ;;
  j <- port_of in_index ;;
  Ok {| network_of := ntwk; port_out := i; port_in := j; position := 0 |}.

(** Modelled from the spec: one step of the traversal, "one TracePoint per
    frequency sample, in frequency order"; there is no next point behind
    the last sample. *)
Definition trace_next (c : cursor) : option (TracePoint * cursor) :=
  match nth_error (Skrf.f (network_of c)) (position c),
        nth_error (Skrf.s (network_of c)) (position c) with
  | Some freq, Some m =>
      Some (trace_point freq (Skrf.entry m (port_out c) (port_in c)),
            {| network_of := network_of c;
               port_out := port_out c;
               port_in := port_in c;
               position := S (position c) |})
  | _, _ => None
  end.

(** At most [fuel] steps from a cursor: the points met, and the cursor
    reached. *)
Fixpoint trace_take (fuel : nat) (c : cursor) : list TracePoint * cursor :=
  match fuel with
  | O => ([], c)
  | S fuel' =>
      match trace_next c with
      | None => ([], c)
      | Some (p, c') =>
          (p :: fst (trace_take fuel' c'), snd (trace_take fuel' c'))
      end
  end.

(** ** The Touchstone parser *)

Module Touchstone.

(** Modelled from the spec: the Touchstone parser of section 4.1,
    [parse(raw_text) -> Result<Network, FormatError>].  The script has no
    parser of its own: line 22 hands the file to scikit-rf's [rf.Network],
    whose code is not in the repository.  The text is taken as the list of
    its lines, each cut at blanks and commas into tokens, a token being a
    number or a word.  Where section 4.1 is silent the choice made is
    said at the definition. *)
Inductive token : Type :=
| Num (x : float)
| Word (w : string).

Definition line : Type := list token.

Inductive frequency_unit : Type := Hz | KHz | MHz | GHz.

Inductive data_format : Type := MA | DB | RI.

Record options : Type :=
  { unit_of : frequency_unit; format_of : data_format; reference : R }.

(** Modelled from the spec: the defaults of the header, "default GHz" and
    "R <value>, default 50".  Section 4.1 names no default format; MA is
    Touchstone's. *)
Definition default_options : options :=
  {| unit_of := GHz; format_of := MA; reference := 50 |}.

(** Modelled from the spec: "the parser normalizes to Hz". *)
Definition multiplier (u : frequency_unit) : R :=
  match u with
  | Hz => 1
  | KHz => 1e3
  | MHz => 1e6
  | GHz => 1e9
  end.

Definition lower_char (c : ascii) : ascii :=
  let n := nat_of_ascii c in
  if ((65 <=? n) && (n <=? 90))%nat then ascii_of_nat (n + 32) else c.

(** Header words are read "case-insensitive". *)
Fixpoint lower (w : string) : string :=
  match w with
  | EmptyString => EmptyString
  | String c rest => String (lower_char c) (lower rest)
  end.

(** Modelled from the spec: the declarations of a header line, in any
    order: the frequency unit, the parameter type ("must be S -- others
    fail with UnsupportedParameterType"), the format and the reference
    impedance.  A word that is no unit, no format and not R is read as the
    parameter type.  Section 4.1 does not say how a header with a stray
    number, or with an R that no positive number follows, is refused: it
    counts as no header. *)
Fixpoint read_options (tokens : list token) (o : options) : result options :=
  match tokens with
  | [] => Ok o
  | Num _ :: _ => Raise (FormatError MissingHeader)
  | Word w :: rest =>
      let w := lower w in
      if String.eqb w "hz" then
        read_options rest
          {| unit_of := Hz; format_of := format_of o; reference := reference o |}
      else if String.eqb w "khz" then
        read_options rest
          {| unit_of := KHz; format_of := format_of o; reference := reference o |}
      else if String.eqb w "mhz" then
        read_options rest
          {| unit_of := MHz; format_of := format_of o; reference := reference o |}
      else if String.eqb w "ghz" then
        read_options rest
          {| unit_of := GHz; format_of := format_of o; reference := reference o |}
      else if String.eqb w "ma" then
        read_options rest
          {| unit_of := unit_of o; format_of := MA; reference := reference o |}
      else if String.eqb w "db" then
        read_options rest
          {| unit_of := unit_of o; format_of := DB; reference := reference o |}
      else if String.eqb w "ri" then
        read_options rest
          {| unit_of := unit_of o; format_of := RI; reference := reference o |}
      else if String.eqb w "s" then read_options rest o
      else if String.eqb w "r" then
        match rest with
        | Num z :: rest' =>
            if Rlt_dec 0 (value z) then
              read_options rest'
                {| unit_of := unit_of o;
                   format_of := format_of o;
                   reference := value z |}
            else Raise (FormatError MissingHeader)
        | _ => Raise (FormatError MissingHeader)
        end
      else Raise (FormatError UnsupportedParameterType)
  end.

(** Modelled from the spec: a pair of a data line as a complex number,
    "converted internally to complex real/imaginary pairs"; angles are in
    degrees, and a DB magnitude is 20 log10 of the linear one. *)
Definition to_complex (fmt : data_format) (a b : float) : complex :=
  match fmt with
  | RI => Complex a b
  | MA =>
      Complex (pos (value a * cos (value b * (PI / 180))))
        (pos (value a * sin (value b * (PI / 180))))
  | DB =>
      Complex (pos (Rpower 10 (value a / 20) * cos (value b * (PI / 180))))
        (pos (Rpower 10 (value a / 20) * sin (value b * (PI / 180))))
  end.

(** Modelled from the spec: a data line, "first token is frequency,
    followed by 8 numbers ... for S11, S21, S12, S22 in that fixed
    order". *)
Definition read_row (tokens : line) : option (float * list float) :=
  match tokens with
  | [Num fr; Num a11; Num b11; Num a21; Num b21;
     Num a12; Num b12; Num a22; Num b22] =>
      Some (fr, [a11; b11; a21; b21; a12; b12; a22; b22])
  | _ => None
  end.

Definition row_matrix (fmt : data_format) (numbers : list float)
  : option Skrf.smatrix :=
  match numbers with
  | [a11; b11; a21; b21; a12; b12; a22; b22] =>
      Some (Skrf.SMatrix (to_complex fmt a11 b11) (to_complex fmt a12 b12)
              (to_complex fmt a21 b21) (to_complex fmt a22 b22))
  | _ => None
  end.

Inductive kind : Type :=
| Blank
| Comment
| Header (declarations : list token)
| Data.

(** Modelled from the spec: "Comment lines (! prefix) and blank lines are
    skipped"; the header line "begins with #"; every other line is a data
    line. *)
Definition kind_of (l : line) : kind :=
  match l with
  | [] => Blank
  | Num _ :: _ => Data
  | Word w :: rest =>
      match w with
      | String "!" _ => Comment
      | String "#" EmptyString => Header rest
      | String "#" w' => Header (Word w' :: rest)
      | _ => Data
      end
  end.

(** What the parser holds between two lines. *)
Record state : Type :=
  { header : option options;
    frequencies : list R;
    matrices : list Skrf.smatrix;
    last_frequency : option R }.

Definition start : state :=
  {| header := None; frequencies := []; matrices := [];
     last_frequency := None |}.

(** Modelled from the spec: one line of the text.  A data line needs a
    header before it; it must hold nine numbers, or the parse ends with
    MalformedDataLine and the number of the line; its frequency must
    exceed the one before, or the parse ends with NonMonotonicFrequency.
    Section 4.1 does not speak of a second header line: it is skipped. *)
Definition step (line_number : nat) (st : state) (l : line) : result state :=
  match kind_of l with
  | Blank => Ok st
  | Comment => Ok st
  | Header declarations =>
      match header st with
      | Some _ => Ok st
      | None =>
          o <- read_options declarations default_options ;;
          Ok {| header := Some o;
                frequencies := frequencies st;
                matrices := matrices st;
                last_frequency := last_frequency st |}
      end
  | Data =>
      match header st with
      | None => Raise (FormatError MissingHeader)
      | Some o =>
          match read_row l with
          | None => Raise (FormatError (MalformedDataLine line_number))
          | Some (fr, numbers) =>
              match row_matrix (format_of o) numbers with
              | None => Raise (FormatError (MalformedDataLine line_number))
              | Some m =>
                  let freq := value fr * multiplier (unit_of o) in
                  let rising :=
                    match last_frequency st with
                    | None => true
                    | Some prev => if Rlt_dec prev freq then true else false
                    end in
                  if rising then
                    Ok {| header := header st;
                          frequencies := frequencies st ++ [freq];
                          matrices := matrices st ++ [m];
                          last_frequency := Some freq |}
                  else Raise (FormatError NonMonotonicFrequency)
              end
          end
      end
  end.

Fixpoint parse_lines (line_number : nat) (st : state) (text : list line)
  : result state :=
  match text with
  | [] => Ok st
  | l :: rest =>
      st' <- step line_number st l ;;
      parse_lines (S line_number) st' rest
  end.

(** What a parse yields: the network, and the reference impedance that
    the header declares for it. *)
Record parsed : Type :=
  { network : Network; reference_impedance : R }.

(** Modelled from the spec: [parse], lines numbered from 1; a text without
    header line ends with MissingHeader.  PortCountMismatch is never
    raised: a text in this format declares its port count by the file
    extension only, which [parse] does not see, and a line of another
    length is a MalformedDataLine. *)
Definition parse (text : list line) : result parsed :=
  st <- parse_lines 1 start text ;;
  match header st with
  | None => Raise (FormatError MissingHeader)
  | Some o =>
      Ok {| network := {| Skrf.f := frequencies st; Skrf.s := matrices st |};
            reference_impedance := reference o |}
  end.

(** A data line that does not hold nine numbers. *)
Definition malformed (l : line) : Prop :=
  kind_of l = Data /\ read_row l = None.

(** Reading a file: the collaborator [read_text] supplies the lines of the
    file, or fails; the parser does the rest. *)
Definition reader_of (read_text : string -> result (list line))
  : string -> result Network :=
  fun file =>
    text <- read_text file ;;
    p <- parse text ;;
    Ok (network p).

End Touchstone.

(** ** Notions used to state the properties *)

(** What the scan knows after reading the prefix [pre] of the array: the
    value at [best_i] is [best], nothing in [pre] is smaller, and everything
    before [best_i] is larger. *)
Definition scan_inv (pre : list R) (best_i : nat) (best : R) : Prop :=
  nth_error pre best_i = Some best /\
  (forall j w, nth_error pre j = Some w -> best <= w) /\
  (forall j w, (j < best_i)%nat -> nth_error pre j = Some w -> best < w).

(** Position [r] holds a minimum of [a], and no position before [r] does. *)
Definition first_minimum (a : list R) (r : nat) : Prop :=
  exists v, scan_inv a r v.

(** The networks a reader yields for a list of files, and the line the
    loop prints for a file. *)
Definition loaded (rf_Network : reader) (files : list string) : list Network :=
  flat_map
    (fun file => match rf_Network file with Ok n => [n] | Raise _ => [] end)
    files.

Definition load_event (rf_Network : reader) (file : string) : event :=
  match rf_Network file with
  | Ok _ => Loaded file
  | Raise e => ErrorLoading file e
  end.

(** The digits of the stem of a file name. *)
Definition stem_digits (name : string) : list ascii :=
  filter Files.isdigit (list_ascii_of_string (Files.stem name)).

(** [enumerate(l)], counting from [i]. *)
Definition enumerate {A : Type} (i : nat) (l : list A) : list (nat * A) :=
  combine (seq i (List.length l)) l.

(** The two lines of a network, read off its S11 trace. *)
Definition magnitude_line (i : nat) (ntwk : Network) : Line xfloat :=
  {| xdata := map (fun p => frequency_hz p / 1e9) (trace ntwk P1 P1);
     ydata := map magnitude_db (trace ntwk P1 P1);
     label := S i |}.

Definition phase_line (i : nat) (ntwk : Network) : Line R :=
  {| xdata := map (fun p => frequency_hz p / 1e9) (trace ntwk P1 P1);
     ydata := map phase_deg (trace ntwk P1 P1);
     label := S i |}.

(** The "Loaded" lines among the events of a run. *)
Definition is_loaded (e : event) : bool :=
  match e with
  | Loaded _ => true
  | _ => false
  end.

(** Pairs in the order of their keys. *)
Definition key_le (a b : Z * string) : Prop := (fst a <= fst b)%Z.

(** Whether a file name has the antenna number [k]. *)
Definition has_key (k : Z) (x : string) : bool :=
  match Files.sort_key x with
  | Ok k' => (k' =? k)%Z
  | Raise _ => false
  end.

(** What every state of a parse satisfies: as many matrices as
    frequencies, frequencies strictly increasing and none above the last
    one read, a positive reference impedance. *)
Definition state_ok (st : Touchstone.state) : Prop :=
  List.length (Touchstone.matrices st)
  = List.length (Touchstone.frequencies st) /\
  StronglySorted Rlt (Touchstone.frequencies st) /\
  match Touchstone.last_frequency st with
  | None => Touchstone.frequencies st = []
  | Some prev => Forall (fun x => x <= prev) (Touchstone.frequencies st)
  end /\
  (forall o, Touchstone.header st = Some o -> 0 < Touchstone.reference o).

(** ** Properties *)

Ltac by_cases_R :=
  repeat match goal with
    | |- context [Rlt_dec ?a ?b] => destruct (Rlt_dec a b)
    | H : context [Rlt_dec ?a ?b] |- _ => destruct (Rlt_dec a b)
    end;
  try reflexivity; try discriminate; try lra.

Lemma classify_good (m : R) : m < -10 -> classify_matching (Fin m) = Good.
Proof. intros H. unfold classify_matching, xlt. by_cases_R. Qed.

Lemma classify_moderate (m : R) :
  -10 <= m < -6 -> classify_matching (Fin m) = Moderate.
Proof. intros H. unfold classify_matching, xlt. by_cases_R. Qed.

Lemma classify_poor (m : R) : -6 <= m -> classify_matching (Fin m) = Poor.
Proof. intros H. unfold classify_matching, xlt. by_cases_R. Qed.

(** C1.  [classify_matching] maps every real magnitude to exactly one
    quality: below -10 it is Good, from -10 up to but excluding -6 it is
    Moderate, from -6 on it is Poor; the four boundary samples of the
    specification come out as listed there. *)
Theorem classify_matching_thresholds :
  (forall m : R,
      (m < -10 /\ classify_matching (Fin m) = Good) \/
      (-10 <= m < -6 /\ classify_matching (Fin m) = Moderate) \/
      (-6 <= m /\ classify_matching (Fin m) = Poor)) /\
  (forall m : R,
      (classify_matching (Fin m) = Good <-> m < -10) /\
      (classify_matching (Fin m) = Moderate <-> -10 <= m < -6) /\
      (classify_matching (Fin m) = Poor <-> -6 <= m)) /\
  classify_matching (Fin (-10.0)) = Moderate /\
  classify_matching (Fin (-10.0001)) = Good /\
  classify_matching (Fin (-6.0)) = Poor /\
  classify_matching (Fin (-6.0001)) = Moderate.
Proof.
  split; [| split].
  - intros m.
    destruct (Rlt_dec m (-10)) as [Hg | Hg].
    + left. split; [exact Hg | now apply classify_good].
    + destruct (Rlt_dec m (-6)) as [Hm | Hm].
      * right; left. split; [lra | apply classify_moderate; lra].
      * right; right. split; [lra | apply classify_poor; lra].
  - intros m. unfold classify_matching, xlt.
    destruct (Rlt_dec m (-10)), (Rlt_dec m (-6));
      repeat split; intros; try discriminate; try reflexivity; lra.
  - repeat split.
    + apply classify_moderate; lra.
    + apply classify_good; lra.
    + apply classify_poor; lra.
    + apply classify_moderate; lra.
Qed.

(** *** The nearest sample *)

Section ArgminScan.

Lemma scan_inv_keep pre best_i best x :
  scan_inv pre best_i best -> ~ x < best ->
  scan_inv (pre ++ [x]) best_i best.
Proof.
  intros (Hb & Hmin & Hfirst) Hx.
  assert (Hlt : (best_i < List.length pre)%nat)
    by (apply nth_error_Some; congruence).
  repeat split.
  - rewrite nth_error_app1; assumption.
  - intros j w Hj.
    destruct (Nat.lt_ge_cases j (List.length pre)) as [Hin | Hout].
    + rewrite nth_error_app1 in Hj by assumption. eauto.
    + rewrite nth_error_app2 in Hj by assumption.
      destruct (j - List.length pre)%nat as [| k]; simpl in Hj.
      * injection Hj as <-. lra.
      * destruct k; discriminate.
  - intros j w Hjb Hj.
    rewrite nth_error_app1 in Hj by lia. eauto.
Qed.

Lemma scan_inv_replace pre best_i best x :
  scan_inv pre best_i best -> x < best ->
  scan_inv (pre ++ [x]) (List.length pre) x.
Proof.
  intros (Hb & Hmin & Hfirst) Hx.
  repeat split.
  - rewrite nth_error_app2 by lia. rewrite Nat.sub_diag. reflexivity.
  - intros j w Hj.
    destruct (Nat.lt_ge_cases j (List.length pre)) as [Hin | Hout].
    + rewrite nth_error_app1 in Hj by assumption.
      specialize (Hmin _ _ Hj). lra.
    + rewrite nth_error_app2 in Hj by assumption.
      destruct (j - List.length pre)%nat as [| k]; simpl in Hj.
      * injection Hj as <-. lra.
      * destruct k; discriminate.
  - intros j w Hjb Hj.
    rewrite nth_error_app1 in Hj by assumption.
    specialize (Hmin _ _ Hj). lra.
Qed.

Lemma argmin_scan_first_minimum a :
  forall pre best_i best,
    scan_inv pre best_i best ->
    first_minimum (pre ++ a) (argmin_scan a (List.length pre) best_i best).
Proof.
  induction a as [| x rest IH]; intros pre best_i best Hinv; simpl.
  - rewrite app_nil_r. exists best. exact Hinv.
  - replace (pre ++ x :: rest) with ((pre ++ [x]) ++ rest)
      by (rewrite <- app_assoc; reflexivity).
    replace (S (List.length pre)) with (List.length (pre ++ [x]))
      by (rewrite length_app; simpl; lia).
    destruct (Rlt_dec x best) as [Hx | Hx].
    + apply IH. eapply scan_inv_replace; eassumption.
    + apply IH. now apply scan_inv_keep.
Qed.

Lemma argmin_first_minimum x rest :
  exists r, argmin (x :: rest) = Ok r /\ first_minimum (x :: rest) r.
Proof.
  exists (argmin_scan rest 1 0 x). split; [reflexivity |].
  apply (argmin_scan_first_minimum rest [x] 0%nat x).
  repeat split.
  - intros [| [| j]] w Hj; simpl in Hj; try discriminate.
    injection Hj as <-. lra.
  - intros j w Hj. lia.
Qed.

End ArgminScan.

Lemma nth_error_distances ntwk t j w :
  nth_error (distances ntwk t) j = Some w ->
  exists fj, nth_error (Skrf.f ntwk) j = Some fj /\ w = Rabs (fj - t).
Proof.
  unfold distances. rewrite nth_error_map.
  destruct (nth_error (Skrf.f ntwk) j) as [fj |]; simpl; intros H;
    [injection H as <-; eauto | discriminate].
Qed.

Lemma distances_nth ntwk t j fj :
  nth_error (Skrf.f ntwk) j = Some fj ->
  nth_error (distances ntwk t) j = Some (Rabs (fj - t)).
Proof.
  intros H. unfold distances. rewrite nth_error_map, H. reflexivity.
Qed.

Lemma getitem_in_range {A : Type} (a : list A) (i : nat) :
  (i < List.length a)%nat -> exists x, getitem a i = Ok x /\ nth_error a i = Some x.
Proof.
  intros H. unfold getitem.
  destruct (nth_error a i) as [x |] eqn:E; [eauto |].
  apply nth_error_None in E. lia.
Qed.

Lemma s_flat_length ntwk i j :
  List.length (s_flat ntwk i j) = List.length (Skrf.s ntwk).
Proof. unfold s_flat. apply length_map. Qed.

(** On a network with samples, [nearest] returns the first position at
    which the distance to the target is least. *)
Lemma nearest_ok ntwk t :
  Skrf.f ntwk <> [] -> Skrf.well_formed ntwk ->
  exists i freq s11,
    nearest ntwk t = Ok (i, freq, s11) /\
    first_minimum (distances ntwk t) i /\
    nth_error (Skrf.f ntwk) i = Some freq /\
    nth_error (s_flat ntwk P1 P1) i = Some s11.
Proof.
  intros Hne Hwf. unfold nearest.
  destruct (distances ntwk t) as [| d rest] eqn:Ed.
  - unfold distances in Ed. apply map_eq_nil in Ed. contradiction.
  - destruct (argmin_first_minimum d rest) as (r & Hr & Hmin).
    rewrite Hr. simpl.
    assert (Hlt : (r < List.length (Skrf.f ntwk))%nat).
    { destruct Hmin as (v & Hv & _).
      rewrite <- Ed in Hv. apply nth_error_distances in Hv.
      destruct Hv as (fj & Hfj & _). apply nth_error_Some. congruence. }
    destruct (getitem_in_range (Skrf.f ntwk) r Hlt) as (freq & Hg & Hn).
    rewrite Hg. simpl.
    assert (Hlt' : (r < List.length (s_flat ntwk P1 P1))%nat)
      by (rewrite s_flat_length, Hwf; exact Hlt).
    destruct (getitem_in_range (s_flat ntwk P1 P1) r Hlt') as (z & Hg' & Hn').
    rewrite Hg'. simpl.
    exists r, freq, z. auto.
Qed.

(** C2.  On every network with at least one frequency sample, and for every
    target, [nearest] selects an index whose frequency is at least as close
    to the target as every other sample, and every sample at a lower index
    is strictly farther: the first minimum wins.  For the frequencies
    1, 2, 3 Hz and the target 1.5 the index is 0. *)
Theorem nearest_selects_first_minimum :
  (forall (ntwk : Network) (target_freq : R),
      Skrf.f ntwk <> [] -> Skrf.well_formed ntwk ->
      exists i freq s11,
        nearest ntwk target_freq = Ok (i, freq, s11) /\
        nth_error (Skrf.f ntwk) i = Some freq /\
        nth_error (s_flat ntwk P1 P1) i = Some s11 /\
        (forall j fj, nth_error (Skrf.f ntwk) j = Some fj ->
                      Rabs (freq - target_freq) <= Rabs (fj - target_freq)) /\
        (forall j fj, (j < i)%nat -> nth_error (Skrf.f ntwk) j = Some fj ->
                      Rabs (freq - target_freq) < Rabs (fj - target_freq))) /\
  (forall m1 m2 m3 : Skrf.smatrix,
      nearest {| Skrf.f := [1; 2; 3]; Skrf.s := [m1; m2; m3] |} 1.5
      = Ok (0%nat, 1, Skrf.s_11 m1)).
Proof.
  split.
  - intros ntwk t Hne Hwf.
    destruct (nearest_ok ntwk t Hne Hwf) as (i & freq & z & Hn & Hmin & Hf & Hs).
    exists i, freq, z. repeat split; try assumption.
    + intros j fj Hj.
      destruct Hmin as (v & Hv & Hle & _).
      rewrite (distances_nth _ t _ _ Hf) in Hv. injection Hv as <-.
      exact (Hle _ _ (distances_nth _ t _ _ Hj)).
    + intros j fj Hji Hj.
      destruct Hmin as (v & Hv & _ & Hfirst).
      rewrite (distances_nth _ t _ _ Hf) in Hv. injection Hv as <-.
      exact (Hfirst _ _ Hji (distances_nth _ t _ _ Hj)).
  - intros m1 m2 m3. unfold nearest, distances. simpl.
    destruct (Rlt_dec (Rabs (2 - 1.5)) (Rabs (1 - 1.5))) as [H | H].
    + exfalso. revert H. unfold Rabs.
      destruct (Rcase_abs (2 - 1.5)), (Rcase_abs (1 - 1.5)); lra.
    + destruct (Rlt_dec (Rabs (3 - 1.5)) (Rabs (1 - 1.5))) as [H' | H'].
      * exfalso. revert H'. unfold Rabs.
        destruct (Rcase_abs (3 - 1.5)), (Rcase_abs (1 - 1.5)); lra.
      * reflexivity.
Qed.

(** A network with the frequencies 1, 2, 3 Hz. *)
Lemma nearest_selects_first_minimum_witness :
  exists i freq s11,
    nearest {| Skrf.f := [1; 2; 3];
               Skrf.s := repeat (Skrf.SMatrix (Complex (pos 1) (pos 0))
                                   (Complex (pos 0) (pos 0))
                                   (Complex (pos 0) (pos 0))
                                   (Complex (pos 1) (pos 0))) 3 |} 1.5
    = Ok (i, freq, s11) /\
    nth_error [1; 2; 3] i = Some freq.
Proof.
  destruct (proj1 nearest_selects_first_minimum
              {| Skrf.f := [1; 2; 3];
                 Skrf.s := repeat (Skrf.SMatrix (Complex (pos 1) (pos 0))
                                     (Complex (pos 0) (pos 0))
                                     (Complex (pos 0) (pos 0))
                                     (Complex (pos 1) (pos 0))) 3 |} 1.5)
    as (i & freq & z & Hn & Hf & _).
  - discriminate.
  - reflexivity.
  - exists i, freq, z. split; assumption.
Defined.

(** C3.  On a network without frequency samples [nearest] raises, whatever
    the target and whatever the network holds otherwise: numpy's [argmin]
    refuses the empty array with ValueError, the failure the specification
    calls EmptyNetworkError.  No value is returned in its place, and the
    analysis of a collection stops at such a network. *)
Theorem nearest_empty_network_fails :
  forall (matrices : list Skrf.smatrix) (target_freq : R),
    let ntwk := {| Skrf.f := []; Skrf.s := matrices |} in
    nearest ntwk target_freq = Raise ValueError /\
    (forall found, nearest ntwk target_freq <> Ok found) /\
    (forall i, analyze_one i ntwk target_freq = Raise ValueError) /\
    snd (analyze_frequency_response [ntwk] target_freq) = Raise ValueError.
Proof.
  intros matrices t ntwk. repeat split.
  intros found H. discriminate H.
Qed.

(** *** Magnitude and phase of a sample *)

Section SampleMetrics.

Lemma ln_10_pos : 0 < ln 10.
Proof. rewrite <- ln_1. apply ln_increasing; lra. Qed.

Lemma sum_squares_nonneg (x y : R) : 0 <= x * x + y * y.
Proof. nra. Qed.

Lemma np_abs_nonneg z : 0 <= np_abs z.
Proof. apply sqrt_pos. Qed.

Lemma np_abs_square z :
  np_abs z * np_abs z
  = value (real z) * value (real z) + value (imag z) * value (imag z).
Proof. unfold np_abs. apply sqrt_sqrt, sum_squares_nonneg. Qed.

Lemma np_abs_zero z :
  np_abs z = 0 <-> value (real z) = 0 /\ value (imag z) = 0.
Proof.
  split.
  - intros H. pose proof (np_abs_square z) as Hsq. rewrite H in Hsq.
    split; nra.
  - intros [Hr Hi]. unfold np_abs. rewrite Hr, Hi.
    replace (0 * 0 + 0 * 0) with 0 by ring. apply sqrt_0.
Qed.

(** [10 ^ (20 log10 x / 20) = x]: the decibel value is the one whose
    inverse transform gives the modulus back. *)
Lemma decibel_inverse (x : R) :
  0 < x -> Rpower 10 (20 * (ln x / ln 10) / 20) = x.
Proof.
  intros Hx. pose proof ln_10_pos as H10. unfold Rpower.
  replace (20 * (ln x / ln 10) / 20 * ln 10) with (ln x) by (field; lra).
  now apply exp_ln.
Qed.

Lemma magnitude_of_cases z :
  (np_abs z = 0 /\ magnitude_of z = NegInf) \/
  (0 < np_abs z /\ magnitude_of z = Fin (20 * (ln (np_abs z) / ln 10))).
Proof.
  unfold magnitude_of, np_log10. pose proof (np_abs_nonneg z) as Hn.
  destruct (Rlt_dec 0 (np_abs z)) as [Hp | Hp].
  - right. split; [assumption | reflexivity].
  - destruct (Rlt_dec (np_abs z) 0) as [Hneg | Hneg]; [lra |].
    left. split; [lra | reflexivity].
Qed.

(** The modulus, seen from the real part when that is not zero. *)
Lemma hypot_scaled (x y : R) :
  x <> 0 -> sqrt (x * x + y * y) = Rabs x * sqrt (1 + (y / x)²).
Proof.
  intros Hx.
  replace (x * x + y * y) with (x² * (1 + (y / x)²))
    by (unfold Rsqr; field; assumption).
  rewrite sqrt_mult.
  - now rewrite sqrt_Rsqr_abs.
  - apply Rle_0_sqr.
  - pose proof (Rle_0_sqr (y / x)). lra.
Qed.

Lemma root_pos (t : R) : 0 < sqrt (1 + t²).
Proof. apply sqrt_lt_R0. pose proof (Rle_0_sqr t). lra. Qed.

Lemma cos_shift_back a : cos (a - PI) = - cos a.
Proof. rewrite cos_minus, cos_PI, sin_PI. ring. Qed.

Lemma sin_shift_back a : sin (a - PI) = - sin a.
Proof. rewrite sin_minus, cos_PI, sin_PI. ring. Qed.

(** [np_arctan2] is an argument of the complex number: modulus and angle
    give the real and imaginary parts back. *)
Lemma arctan2_polar z :
  np_abs z * cos (np_arctan2 (imag z) (real z)) = value (real z) /\
  np_abs z * sin (np_arctan2 (imag z) (real z)) = value (imag z).
Proof.
  unfold np_abs, np_arctan2.
  set (x := value (real z)). set (y := value (imag z)).
  pose proof (root_pos (y / x)) as Hq.
  destruct (Rlt_dec 0 x) as [Hx | Hx].
  - rewrite hypot_scaled by lra. rewrite Rabs_pos_eq by lra.
    rewrite cos_atan, sin_atan. split; field; lra.
  - destruct (Rlt_dec x 0) as [Hx' | Hx'].
    + rewrite hypot_scaled by lra. rewrite Rabs_left by lra.
      destruct (signbit (imag z)).
      * rewrite cos_shift_back, sin_shift_back, cos_atan, sin_atan.
        split; field; lra.
      * rewrite neg_cos, neg_sin, cos_atan, sin_atan.
        split; field; lra.
    + assert (Hx0 : x = 0) by lra. rewrite Hx0.
      replace (0 * 0 + y * y) with (y * y) by ring.
      destruct (Rlt_dec 0 y) as [Hy | Hy].
      * rewrite sqrt_square by lra. rewrite cos_PI2, sin_PI2. lra.
      * destruct (Rlt_dec y 0) as [Hy' | Hy'].
        -- replace (y * y) with ((- y) * (- y)) by ring.
           rewrite sqrt_square by lra.
           rewrite cos_neg, sin_neg, cos_PI2, sin_PI2. lra.
        -- assert (Hy0 : y = 0) by lra. rewrite Hy0.
           replace (0 * 0) with 0 by ring. rewrite sqrt_0. lra.
Qed.

Lemma atan_sign_pos t : 0 < t -> 0 < atan t.
Proof. intros H. rewrite <- atan_0. now apply atan_increasing. Qed.

Lemma atan_sign_neg t : t < 0 -> atan t < 0.
Proof. intros H. rewrite <- atan_0. now apply atan_increasing. Qed.

Lemma quotient_pos_neg (y x : R) : 0 < y -> x < 0 -> y / x < 0.
Proof.
  intros Hy Hx. unfold Rdiv.
  pose proof (Rinv_lt_0_compat x Hx). nra.
Qed.

Lemma quotient_neg_neg (y x : R) : y < 0 -> x < 0 -> 0 < y / x.
Proof.
  intros Hy Hx. unfold Rdiv.
  pose proof (Rinv_lt_0_compat x Hx). nra.
Qed.

(** The angle lies in [[-pi, pi]], and is [-pi] exactly when the imaginary
    part is a negative zero and the real part carries a minus sign. *)
Lemma arctan2_range (y x : float) :
  - PI <= np_arctan2 y x <= PI /\
  (np_arctan2 y x = - PI <->
   value y = 0 /\ zero_sign y = true /\ signbit x = true).
Proof.
  pose proof PI_RGT_0 as Hpi.
  pose proof (atan_bound (value y / value x)) as Hb.
  unfold np_arctan2, signbit.
  destruct (Rlt_dec 0 (value x)) as [Hx | Hx].
  - destruct (Rlt_dec (value x) 0); [lra |].
    split; [lra |]. split; [lra | intros (_ & _ & H); discriminate].
  - destruct (Rlt_dec (value x) 0) as [Hx' | Hx'].
    + destruct (Rlt_dec (value y) 0) as [Hy | Hy].
      * pose proof (atan_sign_pos _ (quotient_neg_neg _ _ Hy Hx')).
        split; [lra |]. split; [lra | intros (H0 & _); lra].
      * destruct (Rlt_dec 0 (value y)) as [Hy' | Hy'].
        -- pose proof (atan_sign_neg _ (quotient_pos_neg _ _ Hy' Hx')).
           split; [lra |]. split; [lra | intros (H0 & _); lra].
        -- assert (Hy0 : value y = 0) by lra.
           assert (Hq : value y / value x = 0)
             by (rewrite Hy0; unfold Rdiv; ring).
           rewrite Hq, atan_0.
           destruct (zero_sign y).
           ++ split; [lra |]. split; [auto | intros _; ring].
           ++ split; [lra |].
              split; [lra | intros (_ & H & _); discriminate].
    + destruct (Rlt_dec 0 (value y)) as [Hy | Hy].
      * split; [lra |]. split; [lra | intros (H0 & _); lra].
      * destruct (Rlt_dec (value y) 0) as [Hy' | Hy'].
        -- split; [lra |]. split; [lra | intros (H0 & _); lra].
        -- assert (Hy0 : value y = 0) by lra.
           destruct (zero_sign x); [destruct (zero_sign y) |].
           ++ split; [lra |]. split; [auto | reflexivity].
           ++ split; [lra |].
              split; [lra | intros (_ & H & _); discriminate].
           ++ split; [lra |].
              split; [lra | intros (_ & _ & H); discriminate].
Qed.

Lemma degrees_range (a : R) :
  - PI <= a <= PI ->
  -180 <= a * (180 / PI) <= 180 /\
  (a * (180 / PI) = -180 <-> a = - PI).
Proof.
  intros Ha. pose proof PI_RGT_0 as Hpi.
  assert (Hk : 0 < 180 / PI) by (apply Rdiv_lt_0_compat; lra).
  assert (Hkpi : 180 / PI * PI = 180) by (field; lra).
  split; [split; nra |].
  split; [intros H; nra | intros ->; field; lra].
Qed.

End SampleMetrics.

(** C4.  For every complex sample the magnitude of the derived point is
    20 times the base-10 logarithm of the modulus, the modulus being the
    non-negative root of the sum of the squared parts.  At the zero sample
    this is the -inf of [log10 0]; everywhere else it is the real number
    whose inverse decibel transform is the modulus. *)
Theorem magnitude_db_is_20_log10 :
  forall (freq : R) (z : complex),
    let modulus := np_abs z in
    0 <= modulus /\
    modulus * modulus
    = value (real z) * value (real z) + value (imag z) * value (imag z) /\
    ((modulus = 0 /\ magnitude_db (trace_point freq z) = NegInf) \/
     (0 < modulus /\
      magnitude_db (trace_point freq z) = Fin (20 * Rlog 10 modulus) /\
      Rpower 10 (20 * Rlog 10 modulus / 20) = modulus)).
Proof.
  intros freq z modulus. subst modulus. split; [apply np_abs_nonneg |].
  split; [apply np_abs_square |].
  simpl. unfold Rlog.
  destruct (magnitude_of_cases z) as [[H0 Hm] | [Hp Hm]].
  - left. split; assumption.
  - right. split; [assumption |]. split; [assumption |].
    now apply decibel_inverse.
Qed.

(** C5, as the code has it.  For every complex sample the phase of the
    derived point is [arctan2 (Im, Re)] in degrees: with the modulus it
    gives the real and imaginary parts back.  It lies in the closed
    interval from -180 to 180; the lower end is not excluded. *)
Theorem phase_deg_closed_range :
  forall (freq : R) (z : complex),
    let phase := phase_deg (trace_point freq z) in
    phase = np_arctan2 (imag z) (real z) * (180 / PI) /\
    np_abs z * cos (phase * (PI / 180)) = value (real z) /\
    np_abs z * sin (phase * (PI / 180)) = value (imag z) /\
    -180 <= phase <= 180.
Proof.
  intros freq z phase. subst phase. simpl. unfold phase_of, np_angle.
  pose proof PI_RGT_0 as Hpi.
  destruct (arctan2_range (imag z) (real z)) as [Hr _].
  destruct (degrees_range _ Hr) as [Hd _].
  destruct (arctan2_polar z) as [Hc Hs].
  split; [reflexivity |].
  replace (np_arctan2 (imag z) (real z) * (180 / PI) * (PI / 180))
    with (np_arctan2 (imag z) (real z)) by (field; lra).
  repeat split; tauto.
Qed.

(** The sample -1 - 0j, as a Touchstone line in RI format with the
    imaginary part written -0.0 gives it: its phase is -180 degrees. *)
Lemma phase_deg_reaches_minus_180 :
  phase_deg (trace_point 2.4e9 (Complex (Float (-1) false) neg_zero)) = -180.
Proof.
  simpl. unfold phase_of, np_angle.
  destruct (arctan2_range neg_zero (Float (-1) false)) as [Hr Hm].
  apply (degrees_range _ Hr), Hm. simpl.
  repeat split. unfold signbit. simpl.
  destruct (Rlt_dec (-1) 0); [reflexivity | lra].
Qed.

(** *** The analysis of a collection *)

(** A network the analysis can handle: it has a sample, and as many
    matrices as frequencies. *)
Lemma analyze_one_ok i ntwk t :
  Skrf.f ntwk <> [] -> Skrf.well_formed ntwk ->
  exists idx freq s11,
    nearest ntwk t = Ok (idx, freq, s11) /\
    analyze_one i ntwk t
    = Ok {| antenna := S i;
            point := trace_point freq s11;
            quality := classify_matching (magnitude_of s11) |}.
Proof.
  intros Hne Hwf.
  destruct (nearest_ok ntwk t Hne Hwf) as (idx & freq & z & Hn & _).
  exists idx, freq, z. split; [assumption |].
  unfold analyze_one. rewrite Hn. reflexivity.
Qed.

Lemma analyze_loop_ok networks t :
  Forall (fun ntwk => Skrf.f ntwk <> [] /\ Skrf.well_formed ntwk) networks ->
  forall i,
  exists rs,
    analyze_loop i networks t = (map AntennaReport rs, Ok tt) /\
    List.length rs = List.length networks /\
    (forall k ntwk,
        nth_error networks k = Some ntwk ->
        exists idx freq s11,
          nearest ntwk t = Ok (idx, freq, s11) /\
          nth_error rs k
          = Some {| antenna := S (i + k);
                    point := trace_point freq s11;
                    quality := classify_matching (magnitude_of s11) |}).
Proof.
  induction 1 as [| ntwk rest [Hne Hwf] _ IH]; intros i.
  - exists []. repeat split. intros [| k] ntwk H; discriminate H.
  - destruct (analyze_one_ok i ntwk t Hne Hwf) as (idx & freq & z & Hn & Ha).
    destruct (IH (S i)) as (rs & Hrun & Hlen & Hnth).
    eexists (_ :: rs). split; [| split].
    + simpl. rewrite Ha. unfold io_bind. simpl. rewrite Hrun. reflexivity.
    + simpl. now rewrite Hlen.
    + intros [| k] n Hk; simpl in Hk.
      * injection Hk as <-. exists idx, freq, z.
        split; [assumption |]. simpl. now rewrite Nat.add_0_r.
      * destruct (Hnth k n Hk) as (idx' & freq' & z' & Hn' & Hr').
        exists idx', freq', z'. split; [assumption |].
        replace (i + S k)%nat with (S i + k)%nat by lia. exact Hr'.
Qed.

Lemma reports_of_reports rs : reports (map AntennaReport rs) = rs.
Proof.
  induction rs as [| r rs IH]; simpl; [reflexivity | now rewrite IH].
Qed.

(** C6, as the code has it.  For every collection whose networks all have
    at least one frequency sample (and as many matrices as frequencies),
    and every target, the analysis ends normally after emitting, behind the
    heading, exactly one report per network, in collection order: the
    report at position k carries the antenna number k+1, the point of the
    nearest S11 sample of the k-th network with its magnitude in dB, and
    the classification of that magnitude.  The reports are as many as the
    networks. *)
Theorem analyze_frequency_response_reports :
  forall (networks : list Network) (target_freq : R),
    Forall (fun ntwk => Skrf.f ntwk <> [] /\ Skrf.well_formed ntwk) networks ->
    exists rs,
      analyze_frequency_response networks target_freq
      = (AnalysisHeader target_freq :: map AntennaReport rs, Ok tt) /\
      reports (fst (analyze_frequency_response networks target_freq)) = rs /\
      List.length rs = List.length networks /\
      (forall k ntwk,
          nth_error networks k = Some ntwk ->
          exists idx freq s11,
            nearest ntwk target_freq = Ok (idx, freq, s11) /\
            nth_error rs k
            = Some {| antenna := S k;
                      point := trace_point freq s11;
                      quality :=
                        classify_matching
                          (magnitude_db (trace_point freq s11)) |}).
Proof.
  intros networks t Hall.
  destruct (analyze_loop_ok networks t Hall 0%nat) as (rs & Hrun & Hlen & Hnth).
  assert (Heq : analyze_frequency_response networks t
                = (AnalysisHeader t :: map AntennaReport rs, Ok tt)).
  { unfold analyze_frequency_response, io_bind. simpl.
    rewrite Hrun. reflexivity. }
  exists rs. split; [exact Heq |]. split; [| split].
  - rewrite Heq. simpl. apply reports_of_reports.
  - exact Hlen.
  - exact Hnth.
Qed.

(** Two antennas with one sample each, at 2.4 GHz. *)
Lemma analyze_frequency_response_reports_witness :
  exists rs,
    analyze_frequency_response
      (repeat {| Skrf.f := [2.4e9];
                 Skrf.s := [Skrf.SMatrix (Complex (pos 0.1) (pos 0))
                              (Complex (pos 0.9) (pos 0))
                              (Complex (pos 0.9) (pos 0))
                              (Complex (pos 0.1) (pos 0))] |} 2)
      2.4e9
    = (AnalysisHeader 2.4e9 :: map AntennaReport rs, Ok tt) /\
    List.length rs = 2%nat.
Proof.
  destruct (analyze_frequency_response_reports
              (repeat {| Skrf.f := [2.4e9];
                         Skrf.s := [Skrf.SMatrix (Complex (pos 0.1) (pos 0))
                                      (Complex (pos 0.9) (pos 0))
                                      (Complex (pos 0.9) (pos 0))
                                      (Complex (pos 0.1) (pos 0))] |} 2)
              2.4e9) as (rs & Hrun & _ & Hlen & _).
  - repeat constructor; discriminate.
  - exists rs. split; assumption.
Defined.

(** A collection with one network that has no sample: the analysis prints
    the heading, no report, and ends with the exception of [argmin]; the
    reports are fewer than the networks. *)
Lemma analyze_frequency_response_empty_network :
  analyze_frequency_response [{| Skrf.f := []; Skrf.s := [] |}] 2.4e9
  = ([AnalysisHeader 2.4e9], Raise ValueError) /\
  List.length
    (reports
       (fst (analyze_frequency_response
               [{| Skrf.f := []; Skrf.s := [] |}] 2.4e9))) = 0%nat /\
  List.length [{| Skrf.f := []; Skrf.s := [] |}] = 1%nat.
Proof. repeat split. Qed.

(** *** Loading *)

Section Loading.

Variable rf_Network : reader.

Lemma load_loop_spec files :
  forall networks,
    load_loop rf_Network files networks
    = (map (load_event rf_Network) files,
       Ok (networks ++ loaded rf_Network files)).
Proof.
  induction files as [| file rest IH]; intros networks; simpl.
  - unfold ret. now rewrite app_nil_r.
  - unfold load_event at 1.
    destruct (rf_Network file) as [n | e]; unfold io_bind; simpl;
      rewrite IH; simpl; [rewrite <- app_assoc |]; reflexivity.
Qed.

Lemma loaded_app files1 files2 :
  loaded rf_Network (files1 ++ files2)
  = loaded rf_Network files1 ++ loaded rf_Network files2.
Proof. unfold loaded. apply flat_map_app. Qed.

Lemma loaded_failure file e :
  rf_Network file = Raise e -> loaded rf_Network [file] = [].
Proof. intros H. unfold loaded. simpl. now rewrite H. Qed.

Lemma loaded_success file n files :
  In file files -> rf_Network file = Ok n -> In n (loaded rf_Network files).
Proof.
  intros Hin Hok. unfold loaded. apply in_flat_map.
  exists file. split; [assumption |]. rewrite Hok. now left.
Qed.

End Loading.

Section SortKey.

Lemma int_of_digits text :
  forallb Files.isdigit text = true ->
  (text = [] /\ Files.int text = Raise ValueError) \/
  (text <> [] /\ exists k, Files.int text = Ok k).
Proof.
  intros H. destruct text as [| c rest].
  - left. split; reflexivity.
  - right. split; [discriminate |]. unfold Files.int. rewrite H. eauto.
Qed.

Lemma filter_forallb {A : Type} (p : A -> bool) (l : list A) :
  forallb p (filter p l) = true.
Proof.
  apply forallb_forall. intros x Hx. apply filter_In in Hx. tauto.
Qed.

Lemma sort_key_cases x :
  (stem_digits x = [] /\ Files.sort_key x = Raise ValueError) \/
  (stem_digits x <> [] /\ exists k, Files.sort_key x = Ok k).
Proof.
  unfold Files.sort_key, stem_digits.
  apply int_of_digits, filter_forallb.
Qed.

Lemma with_keys_fails files x :
  In x files -> stem_digits x = [] ->
  Files.with_keys files = Raise ValueError.
Proof.
  induction files as [| y rest IH]; intros Hin Hx; [contradiction |].
  simpl.
  destruct (sort_key_cases y) as [[_ Hy] | [Hd (k & Hy)]]; rewrite Hy; simpl.
  - reflexivity.
  - destruct Hin as [-> | Hin]; [contradiction |].
    now rewrite (IH Hin Hx).
Qed.

Lemma with_keys_ok files :
  (forall x, In x files -> stem_digits x <> []) ->
  exists keyed, Files.with_keys files = Ok keyed /\ map snd keyed = files.
Proof.
  induction files as [| y rest IH]; intros Hall.
  - exists []. split; reflexivity.
  - destruct (sort_key_cases y) as [[Hy _] | [_ (k & Hy)]].
    + exfalso. apply (Hall y); [now left | assumption].
    + destruct IH as (keyed & Hk & Hm).
      { intros x Hx. apply Hall. now right. }
      exists ((k, y) :: keyed). simpl. rewrite Hy, Hk. simpl.
      now rewrite Hm.
Qed.

Lemma with_keys_names files keyed :
  Files.with_keys files = Ok keyed -> map snd keyed = files.
Proof.
  revert keyed. induction files as [| y rest IH]; intros keyed; simpl.
  - intros H. injection H as <-. reflexivity.
  - destruct (Files.sort_key y) as [k | e]; simpl; [| discriminate].
    destruct (Files.with_keys rest) as [keyed' | e]; simpl; [| discriminate].
    intros H. injection H as <-. simpl. now rewrite (IH keyed').
Qed.

Lemma insert_perm x sorted : Permutation (x :: sorted) (Files.insert x sorted).
Proof.
  induction sorted as [| y rest IH]; simpl; [reflexivity |].
  destruct (fst x <=? fst y)%Z; [reflexivity |].
  rewrite perm_swap. now apply perm_skip.
Qed.

Lemma sort_perm keyed : Permutation keyed (Files.sort keyed).
Proof.
  induction keyed as [| x rest IH]; simpl; [reflexivity |].
  rewrite <- insert_perm. now apply perm_skip.
Qed.

Lemma sort_by_number_perm files sorted :
  Files.sort_by_number files = Ok sorted -> Permutation files sorted.
Proof.
  unfold Files.sort_by_number.
  destruct (Files.with_keys files) as [keyed | e] eqn:Hk; simpl;
    [| discriminate].
  intros H. injection H as <-.
  rewrite <- (with_keys_names _ _ Hk).
  apply Permutation_map, sort_perm.
Qed.

End SortKey.

Lemma load_antenna_files_sorted rf_Network directory files :
  Files.sort_by_number (Files.glob directory) = Ok files ->
  load_antenna_files rf_Network directory
  = (map (load_event rf_Network) files, Ok (loaded rf_Network files)).
Proof.
  intros H. unfold load_antenna_files, io_bind, lift. rewrite H. simpl.
  now rewrite load_loop_spec.
Qed.

(** *** The parser *)

Section Parser.

Import Touchstone.

Lemma read_options_outcome :
  forall (n : nat) (tokens : list token) (o : options),
    (List.length tokens <= n)%nat ->
    0 < reference o ->
    match read_options tokens o with
    | Ok o' => 0 < reference o'
    | Raise e => exists fe, e = FormatError fe
    end.
Proof.
  induction n as [| n IH]; intros tokens o Hlen Hpos.
  - destruct tokens; [exact Hpos | simpl in Hlen; lia].
  - destruct tokens as [| [x | w] rest]; [exact Hpos | simpl; eauto |].
    simpl in Hlen. cbn [read_options].
    repeat match goal with
      | |- context [if String.eqb ?a ?b then _ else _] =>
          destruct (String.eqb a b);
          [try (apply IH; [lia | exact Hpos]) |]
      end; eauto.
    destruct rest as [| [z | w'] rest']; eauto.
    destruct (Rlt_dec 0 (value z)) as [Hz | Hz]; eauto.
    apply IH; [simpl in Hlen; lia | exact Hz].
Qed.

Lemma sorted_snoc (l : list R) (x : R) :
  StronglySorted Rlt l -> Forall (fun y => y < x) l ->
  StronglySorted Rlt (l ++ [x]).
Proof.
  induction 1 as [| y rest Hs IH Hy]; intros Hall; simpl.
  - repeat constructor.
  - inversion Hall as [| ? ? Hyx Hrest]; subst.
    constructor; [now apply IH |].
    apply Forall_app. split; [exact Hy | now constructor].
Qed.

Lemma step_outcome n st l :
  state_ok st ->
  match step n st l with
  | Ok st' => state_ok st'
  | Raise e => exists fe, e = FormatError fe
  end.
Proof.
  intros (Hlen & Hsorted & Hlast & Href). unfold step.
  destruct (kind_of l) as [| | declarations |].
  - repeat split; assumption.
  - repeat split; assumption.
  - destruct (header st) as [o |] eqn:Hh.
    + repeat split; try assumption. now rewrite Hh.
    + pose proof (read_options_outcome _ declarations default_options
                    (Nat.le_refl _)) as Ho.
      destruct (read_options declarations default_options) as [o | e]; simpl.
      * repeat split; try assumption. simpl.
        intros o' Ho'. injection Ho' as <-. apply Ho. simpl. lra.
      * apply Ho. simpl. lra.
  - destruct (header st) as [o |] eqn:Hh; [| eauto].
    destruct (read_row l) as [[fr numbers] |]; [| eauto].
    destruct (row_matrix (format_of o) numbers) as [m |]; [| eauto].
    destruct (last_frequency st) as [prev |] eqn:Hp.
    + destruct (Rlt_dec prev (value fr * multiplier (unit_of o)))
        as [Hlt | Hge]; [| eauto].
      repeat split; simpl.
      * rewrite !length_app, Hlen. reflexivity.
      * apply sorted_snoc; [exact Hsorted |].
        eapply Forall_impl; [| exact Hlast]. simpl. intros y Hy. lra.
      * apply Forall_app. split.
        -- eapply Forall_impl; [| exact Hlast]. simpl. intros y Hy. lra.
        -- constructor; [lra | constructor].
      * exact Href.
    + repeat split; simpl.
      * rewrite !length_app, Hlen. reflexivity.
      * rewrite Hlast. repeat constructor.
      * rewrite Hlast. constructor; [lra | constructor].
      * exact Href.
Qed.

Lemma parse_lines_outcome text :
  forall n st,
    state_ok st ->
    match parse_lines n st text with
    | Ok st' => state_ok st'
    | Raise e => exists fe, e = FormatError fe
    end.
Proof.
  induction text as [| l rest IH]; intros n st Hok; simpl.
  - exact Hok.
  - pose proof (step_outcome n st l Hok) as Hstep.
    destruct (step n st l) as [st' | e]; simpl.
    + now apply IH.
    + exact Hstep.
Qed.

Lemma start_ok : state_ok start.
Proof.
  repeat split; simpl; try constructor. intros o H. discriminate H.
Qed.

(** A text that parses gives a whole network: as many matrices as
    frequencies, the frequencies strictly increasing, a positive
    reference impedance. *)
Lemma parse_outcome text :
  match parse text with
  | Ok p =>
      Skrf.well_formed (network p) /\
      StronglySorted Rlt (Skrf.f (network p)) /\
      0 < reference_impedance p
  | Raise e => exists fe, e = FormatError fe
  end.
Proof.
  unfold parse.
  pose proof (parse_lines_outcome text 1 start start_ok) as H.
  destruct (parse_lines 1 start text) as [st | e]; simpl; [| exact H].
  destruct H as (Hlen & Hsorted & _ & Href).
  destruct (header st) as [o |]; [| eauto].
  repeat split; simpl; auto.
Qed.

Lemma step_malformed n st l :
  malformed l ->
  step n st l
  = match header st with
    | None => Raise (FormatError MissingHeader)
    | Some _ => Raise (FormatError (MalformedDataLine n))
    end.
Proof.
  intros [Hk Hr]. unfold step. rewrite Hk, Hr. reflexivity.
Qed.

Lemma parse_lines_app before :
  forall after n st,
    parse_lines n st (before ++ after)
    = (st' <- parse_lines n st before ;;
       parse_lines (n + List.length before) st' after).
Proof.
  induction before as [| l rest IH]; intros after n st; simpl.
  - now rewrite Nat.add_0_r.
  - destruct (step n st l) as [st' | e]; simpl; [| reflexivity].
    rewrite IH. now rewrite Nat.add_succ_r.
Qed.

(** A malformed line ends the parse, whatever stands before and behind
    it. *)
Lemma parse_malformed before bad after :
  malformed bad ->
  exists fe, parse (before ++ bad :: after) = Raise (FormatError fe).
Proof.
  intros Hbad. unfold parse. rewrite parse_lines_app.
  pose proof (parse_lines_outcome before 1 start start_ok) as H.
  destruct (parse_lines 1 start before) as [st | e]; simpl.
  - rewrite (step_malformed _ _ _ Hbad).
    destruct (header st); simpl; eauto.
  - destruct H as (fe & ->). eauto.
Qed.

(** When the lines before it are in order and hold the header, the error
    names the malformed line by its number. *)
Lemma parse_malformed_line before bad after st o :
  malformed bad ->
  parse_lines 1 start before = Ok st ->
  header st = Some o ->
  parse (before ++ bad :: after)
  = Raise (FormatError (MalformedDataLine (S (List.length before)))).
Proof.
  intros Hbad Hbefore Hh. unfold parse.
  rewrite parse_lines_app, Hbefore. simpl.
  rewrite (step_malformed _ _ _ Hbad), Hh. reflexivity.
Qed.

Lemma reader_of_malformed read_text file before bad after :
  read_text file = Ok (before ++ bad :: after) ->
  malformed bad ->
  exists fe, reader_of read_text file = Raise (FormatError fe).
Proof.
  intros Hread Hbad. unfold reader_of. rewrite Hread. simpl.
  destruct (parse_malformed before bad after Hbad) as (fe & ->).
  simpl. eauto.
Qed.

Lemma reader_of_whole read_text file ntwk :
  reader_of read_text file = Ok ntwk ->
  Skrf.well_formed ntwk /\ StronglySorted Rlt (Skrf.f ntwk).
Proof.
  unfold reader_of. destruct (read_text file) as [text | e]; simpl;
    [| discriminate].
  pose proof (parse_outcome text) as H.
  destruct (parse text) as [p | e]; simpl; [| discriminate].
  intros E. injection E as <-. tauto.
Qed.

End Parser.

(** C7.  Whenever the matched files can be put in order, loading goes
    through all of them, whatever the reader does on each: the files
    visited are the matched files, each exactly once; one line is printed
    per file, "Loaded" or "Error loading" with the exception; the result
    holds the networks of the files the reader accepted, in that order.  A
    file on which the reader raises contributes nothing to the result, its
    failure is among the printed lines, and the files before and after it
    are loaded as if it were absent.  With the Touchstone parser as the
    reader, a file that holds a malformed data line, wherever in the file,
    is such a file: its parse ends with a format error, which names the
    line when the lines before it are in order, and a file that parses
    contributes a whole network, with as many matrices as frequencies and
    the frequencies strictly increasing. *)
Theorem load_antenna_files_per_file :
  forall (rf_Network : reader) (directory files : list string),
    Files.sort_by_number (Files.glob directory) = Ok files ->
    Permutation (Files.glob directory) files /\
    load_antenna_files rf_Network directory
    = (map (load_event rf_Network) files, Ok (loaded rf_Network files)) /\
    (forall before file after e,
        files = before ++ file :: after ->
        rf_Network file = Raise e ->
        loaded rf_Network files
        = loaded rf_Network before ++ loaded rf_Network after /\
        In (ErrorLoading file e)
          (fst (load_antenna_files rf_Network directory))) /\
    (forall file n,
        In file files -> rf_Network file = Ok n ->
        In n (loaded rf_Network files) /\
        In (Loaded file) (fst (load_antenna_files rf_Network directory))) /\
    (forall read_text : string -> result (list Touchstone.line),
        rf_Network = Touchstone.reader_of read_text ->
        (forall file before bad after,
            In file files ->
            read_text file = Ok (before ++ bad :: after) ->
            Touchstone.malformed bad ->
            exists fe,
              rf_Network file = Raise (FormatError fe) /\
              loaded rf_Network [file] = [] /\
              In (ErrorLoading file (FormatError fe))
                (fst (load_antenna_files rf_Network directory))) /\
        (forall file before bad after st o,
            read_text file = Ok (before ++ bad :: after) ->
            Touchstone.malformed bad ->
            Touchstone.parse_lines 1 Touchstone.start before = Ok st ->
            Touchstone.header st = Some o ->
            rf_Network file
            = Raise (FormatError
                       (MalformedDataLine (S (List.length before))))) /\
        (forall file ntwk,
            rf_Network file = Ok ntwk ->
            Skrf.well_formed ntwk /\ StronglySorted Rlt (Skrf.f ntwk))).
Proof.
  intros rf_Network directory files Hsort.
  pose proof (load_antenna_files_sorted rf_Network _ _ Hsort) as Hload.
  split; [now apply sort_by_number_perm |].
  split; [exact Hload |]. split; [| split].
  - intros before file after e -> Hfail. split.
    + rewrite loaded_app.
      change (file :: after) with ([file] ++ after).
      rewrite loaded_app, (loaded_failure _ _ _ Hfail). reflexivity.
    + rewrite Hload. simpl. apply in_map_iff. exists file.
      split; [unfold load_event; now rewrite Hfail |].
      apply in_or_app. right. now left.
  - intros file n Hin Hok. split.
    + now apply loaded_success with (file := file).
    + rewrite Hload. simpl. apply in_map_iff. exists file.
      split; [unfold load_event; now rewrite Hok | assumption].
  - intros read_text Hreader. split; [| split].
    + intros file before bad after Hin Hread Hbad.
      assert (Hfail : exists fe, rf_Network file = Raise (FormatError fe)).
      { rewrite Hreader.
        now apply reader_of_malformed
          with (before := before) (bad := bad) (after := after). }
      destruct Hfail as (fe & Hfail).
      exists fe. split; [exact Hfail |].
      split; [now apply loaded_failure with (e := FormatError fe) |].
      rewrite Hload. simpl. apply in_map_iff. exists file.
      split; [unfold load_event; now rewrite Hfail | assumption].
    + intros file before bad after st o Hread Hbad Hbefore Hh.
      rewrite Hreader. unfold Touchstone.reader_of. rewrite Hread. simpl.
      rewrite (parse_malformed_line before bad after st o Hbad Hbefore Hh).
      reflexivity.
    + intros file ntwk Hok. rewrite Hreader in Hok.
      now apply reader_of_whole with (read_text := read_text) (file := file).
Qed.

(** Two antenna files read through the Touchstone parser; the second one
    holds, behind its header and one good line, a data line with seven
    numbers. *)
Lemma load_antenna_files_per_file_witness :
  let header := [Touchstone.Word "#"; Touchstone.Word "GHz";
                 Touchstone.Word "S"; Touchstone.Word "RI";
                 Touchstone.Word "R"; Touchstone.Num (pos 50)] in
  let row := fun fr : R =>
               map (fun x => Touchstone.Num (pos x))
                 [fr; 0.1; 0; 0.9; 0; 0.9; 0; 0.1; 0] in
  let short := map (fun x => Touchstone.Num (pos x))
                 [2.5; 0.1; 0; 0.9; 0; 0.9; 0; 0.1] in
  let read_text := fun file : string =>
                     if String.eqb file "antenna2.s2p"
                     then Ok [header; row 2.4; short; row 2.6]
                     else Ok [header; row 2.4] in
  exists fe,
    Touchstone.reader_of read_text "antenna2.s2p"
    = Raise (FormatError fe) /\
    In (ErrorLoading "antenna2.s2p" (FormatError fe))
      (fst (load_antenna_files (Touchstone.reader_of read_text)
              ["antenna2.s2p"; "antenna1.s2p"]%string)).
Proof.
  intros header row short read_text.
  destruct (proj1 (proj2 (proj2 (proj2 (proj2
              (load_antenna_files_per_file (Touchstone.reader_of read_text)
                 ["antenna2.s2p"; "antenna1.s2p"]%string
                 ["antenna1.s2p"; "antenna2.s2p"]%string eq_refl))))
              read_text eq_refl)
              "antenna2.s2p"%string [header; row 2.4] short [row 2.6])
    as (fe & Hfail & _ & Hlog).
  - simpl. right. left. reflexivity.
  - reflexivity.
  - split; reflexivity.
  - exists fe. split; assumption.
Defined.

(** C9.  If some file matched by the pattern has a stem without a decimal
    digit, loading raises ValueError: the key of line 16 cannot be computed,
    no file is read and nothing is printed, whatever the reader would have
    done, since the sort stands outside the loop's try. *)
Theorem load_antenna_files_stem_without_digit :
  forall (rf_Network : reader) (directory : list string) (name : string),
    In name (Files.glob directory) ->
    stem_digits name = [] ->
    Files.sort_key name = Raise ValueError /\
    load_antenna_files rf_Network directory = ([], Raise ValueError).
Proof.
  intros rf_Network directory name Hin Hd. split.
  - destruct (sort_key_cases name) as [[_ H] | [H _]];
      [assumption | contradiction].
  - unfold load_antenna_files, io_bind, lift, Files.sort_by_number.
    now rewrite (with_keys_fails _ _ Hin Hd).
Qed.

(** A directory with antenna1.s2p and antenna.s2p, and a reader that
    accepts every file. *)
Lemma load_antenna_files_stem_without_digit_witness :
  Files.sort_key "antenna.s2p" = Raise ValueError /\
  load_antenna_files (fun _ => Ok {| Skrf.f := [2.4e9]; Skrf.s := [] |})
    ["antenna1.s2p"; "antenna.s2p"]%string
  = ([], Raise ValueError).
Proof.
  apply (load_antenna_files_stem_without_digit
           (fun _ => Ok {| Skrf.f := [2.4e9]; Skrf.s := [] |})
           ["antenna1.s2p"; "antenna.s2p"]%string "antenna.s2p"%string).
  - simpl. right. left. reflexivity.
  - reflexivity.
Defined.

(** C10.  When loading ends with no network, [visualize_all_antennas]
    prints its message and returns None, not a pair of figures; the script
    body, which unpacks the returned value into two names, then ends with
    TypeError before any analysis. *)
Theorem visualize_all_antennas_returns_none :
  forall (rf_Network : reader) (directory : list string) (save_plots : bool)
         (log : list event),
    load_antenna_files rf_Network directory = (log, Ok []) ->
    visualize_all_antennas rf_Network directory save_plots
    = (log ++ [NoFilesFound], Ok None) /\
    main rf_Network directory = (log ++ [NoFilesFound], Raise TypeError).
Proof.
  intros rf_Network directory save_plots log H.
  assert (Hv : forall b, visualize_all_antennas rf_Network directory b
                         = (log ++ [NoFilesFound], Ok None)).
  { intros b. unfold visualize_all_antennas, io_bind. rewrite H. reflexivity. }
  split; [apply Hv |].
  unfold main, io_bind. rewrite Hv. simpl. now rewrite app_nil_r.
Qed.

(** The empty directory, and a directory whose only file is refused. *)
Lemma visualize_all_antennas_returns_none_witness :
  (visualize_all_antennas (fun _ => Raise (OtherError 0)) [] false
   = ([NoFilesFound], Ok None) /\
   main (fun _ => Raise (OtherError 0)) [] = ([NoFilesFound], Raise TypeError)) /\
  (visualize_all_antennas (fun _ => Raise (OtherError 0))
     ["antenna1.s2p"]%string true
   = ([ErrorLoading "antenna1.s2p" (OtherError 0); NoFilesFound], Ok None) /\
   main (fun _ => Raise (OtherError 0)) ["antenna1.s2p"]%string
   = ([ErrorLoading "antenna1.s2p" (OtherError 0); NoFilesFound],
      Raise TypeError)).
Proof.
  split.
  - apply (visualize_all_antennas_returns_none
             (fun _ => Raise (OtherError 0)) [] false []). reflexivity.
  - apply (visualize_all_antennas_returns_none
             (fun _ => Raise (OtherError 0)) ["antenna1.s2p"]%string true
             [ErrorLoading "antenna1.s2p" (OtherError 0)]). reflexivity.
Defined.

(** *** Traces and the plotted lines *)

Section Traces.

Lemma combine_fst {A B : Type} (a : list A) :
  forall b : list B,
    List.length a = List.length b -> map fst (combine a b) = a.
Proof.
  induction a as [| x a IH]; intros [| y b] H; simpl in *;
    try reflexivity; try discriminate.
  f_equal. apply IH. lia.
Qed.

Lemma combine_snd {A B : Type} (a : list A) :
  forall b : list B,
    List.length a = List.length b -> map snd (combine a b) = b.
Proof.
  induction a as [| x a IH]; intros [| y b] H; simpl in *;
    try reflexivity; try discriminate.
  f_equal. apply IH. lia.
Qed.

Variable ntwk : Network.
Hypothesis Hwf : Skrf.well_formed ntwk.

Lemma lengths_agree i j :
  List.length (Skrf.f ntwk) = List.length (s_flat ntwk i j).
Proof. rewrite s_flat_length. symmetry. exact Hwf. Qed.

Lemma trace_length i j :
  List.length (trace ntwk i j) = List.length (Skrf.f ntwk).
Proof.
  unfold trace. rewrite length_map, length_combine, <- lengths_agree.
  apply Nat.min_id.
Qed.

Lemma trace_frequencies i j :
  map frequency_hz (trace ntwk i j) = Skrf.f ntwk.
Proof.
  unfold trace. rewrite map_map. simpl.
  apply combine_fst, lengths_agree.
Qed.

Lemma trace_magnitudes i j :
  map magnitude_db (trace ntwk i j) = map magnitude_of (s_flat ntwk i j).
Proof.
  unfold trace. rewrite map_map. simpl.
  rewrite <- (combine_snd (Skrf.f ntwk) (s_flat ntwk i j)) at 2
    by apply lengths_agree.
  now rewrite map_map.
Qed.

Lemma trace_phases i j :
  map phase_deg (trace ntwk i j) = map phase_of (s_flat ntwk i j).
Proof.
  unfold trace. rewrite map_map. simpl.
  rewrite <- (combine_snd (Skrf.f ntwk) (s_flat ntwk i j)) at 2
    by apply lengths_agree.
  now rewrite map_map.
Qed.

Lemma trace_nth i j k fr m :
  nth_error (Skrf.f ntwk) k = Some fr ->
  nth_error (Skrf.s ntwk) k = Some m ->
  nth_error (trace ntwk i j) k = Some (trace_point fr (Skrf.entry m i j)).
Proof.
  intros Hf Hs. unfold trace, s_flat.
  rewrite nth_error_map.
  assert (Hc : nth_error (combine (Skrf.f ntwk)
                            (map (fun m => Skrf.entry m i j) (Skrf.s ntwk))) k
               = Some (fr, Skrf.entry m i j)).
  { clear Hwf. revert k Hf Hs.
    generalize (Skrf.f ntwk) as fs, (Skrf.s ntwk) as ms.
    induction fs as [| x fs IH]; intros ms [| k] Hf Hs;
      destruct ms as [| y ms]; simpl in *; try discriminate.
    - injection Hf as <-. injection Hs as <-. reflexivity.
    - now apply IH. }
  rewrite Hc. reflexivity.
Qed.

Lemma freq_ghz_of_trace :
  freq_ghz ntwk = map (fun p => frequency_hz p / 1e9) (trace ntwk P1 P1).
Proof.
  unfold freq_ghz. rewrite <- (trace_frequencies P1 P1) at 1.
  now rewrite map_map.
Qed.

Lemma magnitude_plot i :
  ax_plot (freq_ghz ntwk) (s11_mag_db ntwk) i = Ok (magnitude_line i ntwk).
Proof.
  unfold ax_plot, s11_mag_db, magnitude_line.
  rewrite <- freq_ghz_of_trace, trace_magnitudes.
  unfold freq_ghz. rewrite !length_map, s_flat_length, Hwf, Nat.eqb_refl.
  reflexivity.
Qed.

Lemma phase_plot i :
  ax_plot (freq_ghz ntwk) (s11_phase ntwk) i = Ok (phase_line i ntwk).
Proof.
  unfold ax_plot, s11_phase, phase_line.
  rewrite <- freq_ghz_of_trace, trace_phases.
  unfold freq_ghz. rewrite !length_map, s_flat_length, Hwf, Nat.eqb_refl.
  reflexivity.
Qed.

End Traces.

Lemma for_enumerate_ok {A B : Type} (body : nat -> A -> result B)
  (g : nat -> A -> B) (P : A -> Prop) :
  (forall i x, P x -> body i x = Ok (g i x)) ->
  forall l i,
    Forall P l ->
    for_enumerate body i l
    = Ok (map (fun p => g (fst p) (snd p)) (enumerate i l)).
Proof.
  intros Hbody. induction l as [| x rest IH]; intros i Hall.
  - reflexivity.
  - inversion Hall as [| ? ? Hx Hrest]; subst.
    simpl. rewrite (Hbody _ _ Hx). simpl.
    rewrite (IH (S i) Hrest). reflexivity.
Qed.

Lemma enumerate_length {A : Type} (l : list A) i :
  List.length (enumerate i l) = List.length l.
Proof.
  unfold enumerate. rewrite length_combine, length_seq. apply Nat.min_id.
Qed.

Lemma enumerate_nth {A : Type} (x : A) (after : list A) :
  forall before start,
    nth_error (enumerate start (before ++ x :: after)) (List.length before)
    = Some ((start + List.length before)%nat, x).
Proof.
  unfold enumerate.
  induction before as [| b before IH]; intros start; simpl.
  - now rewrite Nat.add_0_r.
  - rewrite IH, Nat.add_succ_r. reflexivity.
Qed.

(** *** The traversal of a trace *)

Lemma skipn_nth_error {A : Type} (l : list A) :
  forall k x, nth_error l k = Some x -> skipn k l = x :: skipn (S k) l.
Proof.
  induction l as [| y l IH]; intros [| k] x H; simpl in *; try discriminate.
  - now injection H as <-.
  - now apply IH.
Qed.

Lemma trace_next_point c :
  Skrf.well_formed (network_of c) ->
  match nth_error (trace (network_of c) (port_out c) (port_in c))
          (position c) with
  | Some p =>
      trace_next c
      = Some (p, {| network_of := network_of c;
                    port_out := port_out c;
                    port_in := port_in c;
                    position := S (position c) |})
  | None => trace_next c = None
  end.
Proof.
  intros Hwf. unfold trace_next.
  destruct (nth_error (Skrf.f (network_of c)) (position c)) as [fr |] eqn:Hf.
  - destruct (nth_error (Skrf.s (network_of c)) (position c)) as [m |] eqn:Hs.
    + now rewrite (trace_nth _ _ _ _ _ _ Hf Hs).
    + exfalso. apply nth_error_None in Hs.
      assert (position c < List.length (Skrf.f (network_of c)))%nat
        by (apply nth_error_Some; congruence).
      unfold Skrf.well_formed in Hwf. lia.
  - assert (Hn : nth_error (trace (network_of c) (port_out c) (port_in c))
                   (position c) = None).
    { apply nth_error_None. rewrite (trace_length _ Hwf).
      now apply nth_error_None. }
    now rewrite Hn.
Qed.

(** A traversal never touches the network or the port pair of its
    cursor. *)
Lemma trace_take_frame fuel :
  forall c,
    network_of (snd (trace_take fuel c)) = network_of c /\
    port_out (snd (trace_take fuel c)) = port_out c /\
    port_in (snd (trace_take fuel c)) = port_in c.
Proof.
  induction fuel as [| fuel IH]; intros c; simpl; [repeat split |].
  destruct (trace_next c) as [[p c'] |] eqn:Hn; simpl; [| repeat split].
  unfold trace_next in Hn.
  destruct (nth_error (Skrf.f (network_of c)) (position c)); [| discriminate].
  destruct (nth_error (Skrf.s (network_of c)) (position c)); [| discriminate].
  injection Hn as _ Hc. subst c'.
  destruct (IH {| network_of := network_of c;
                  port_out := port_out c;
                  port_in := port_in c;
                  position := S (position c) |}) as (H1 & H2 & H3).
  simpl in H1, H2, H3. repeat split; assumption.
Qed.

Lemma trace_take_points fuel :
  forall c,
    Skrf.well_formed (network_of c) ->
    fst (trace_take fuel c)
    = firstn fuel
        (skipn (position c) (trace (network_of c) (port_out c) (port_in c))) /\
    position (snd (trace_take fuel c))
    = (position c + List.length (fst (trace_take fuel c)))%nat.
Proof.
  induction fuel as [| fuel IH]; intros c Hwf; simpl.
  - split; [reflexivity | lia].
  - pose proof (trace_next_point c Hwf) as Hnext.
    destruct (nth_error (trace (network_of c) (port_out c) (port_in c))
                (position c)) as [p |] eqn:Hp.
    + rewrite Hnext. simpl.
      rewrite (skipn_nth_error _ _ _ Hp). simpl.
      destruct (IH {| network_of := network_of c;
                      port_out := port_out c;
                      port_in := port_in c;
                      position := S (position c) |} Hwf) as [Hpts Hpos].
      simpl in Hpts, Hpos. rewrite Hpts, Hpos.
      split; [reflexivity |]. rewrite <- Hpts. lia.
    + rewrite Hnext. simpl.
      apply nth_error_None in Hp. rewrite (skipn_all2 _ Hp).
      split; [reflexivity | lia].
Qed.

Lemma port_of_valid index :
  (1 <= index <= 2)%nat -> exists i, port_of index = Ok i.
Proof.
  intros H. destruct index as [| [| [| k]]]; try lia; simpl; eauto.
Qed.

(** C8.  For every network (with as many matrices as frequencies) and
    every valid port pair, a traversal of the trace yields exactly one
    point per frequency sample, in the order of the frequency list: the
    frequencies of the points are the frequency list, and the point at
    position k is derived from the k-th frequency and the k-th matrix.
    The sequence is finite: after as many steps as there are samples there
    is no next point, and more fuel yields nothing more.  The traversal
    only reads: however far it has gone, the network of the cursor is the
    network it started from, and a traversal opened again on it goes
    exactly as the first.  The script's own instance is the pair (1, 1):
    the arrays of lines 44, 45 and 58 hold the frequencies (in GHz), the
    magnitudes and the phases of this trace, and the magnitude line and
    the phase line that [plot_s_parameters_multi] draws for a network are
    both read off it. *)
Theorem trace_one_point_per_sample :
  forall (ntwk : Network) (out_index in_index : nat),
    Skrf.well_formed ntwk ->
    (1 <= out_index <= 2)%nat ->
    (1 <= in_index <= 2)%nat ->
    exists i j c0,
      port_of out_index = Ok i /\
      port_of in_index = Ok j /\
      trace_open ntwk out_index in_index = Ok c0 /\
      fst (trace_take (List.length (Skrf.f ntwk)) c0) = trace ntwk i j /\
      List.length (trace ntwk i j) = List.length (Skrf.f ntwk) /\
      map frequency_hz (trace ntwk i j) = Skrf.f ntwk /\
      (forall k fr m,
          nth_error (Skrf.f ntwk) k = Some fr ->
          nth_error (Skrf.s ntwk) k = Some m ->
          nth_error (trace ntwk i j) k
          = Some (trace_point fr (Skrf.entry m i j))) /\
      trace_next (snd (trace_take (List.length (Skrf.f ntwk)) c0)) = None /\
      (forall fuel,
          (List.length (Skrf.f ntwk) <= fuel)%nat ->
          fst (trace_take fuel c0) = trace ntwk i j) /\
      (forall k, network_of (snd (trace_take k c0)) = ntwk) /\
      (forall k c1,
          trace_open (network_of (snd (trace_take k c0))) out_index in_index
          = Ok c1 ->
          forall fuel, trace_take fuel c1 = trace_take fuel c0) /\
      freq_ghz ntwk = map (fun p => frequency_hz p / 1e9) (trace ntwk P1 P1) /\
      s11_mag_db ntwk = map magnitude_db (trace ntwk P1 P1) /\
      s11_phase ntwk = map phase_deg (trace ntwk P1 P1) /\
      (forall networks before after,
          networks = before ++ ntwk :: after ->
          Forall Skrf.well_formed networks ->
          exists fig,
            plot_s_parameters_multi networks = Ok fig /\
            List.length (ax1 fig) = List.length networks /\
            List.length (ax2 fig) = List.length networks /\
            nth_error (ax1 fig) (List.length before)
            = Some (magnitude_line (List.length before) ntwk) /\
            nth_error (ax2 fig) (List.length before)
            = Some (phase_line (List.length before) ntwk)).
Proof.
  intros ntwk out_index in_index Hwf Hout Hin.
  destruct (port_of_valid _ Hout) as (i & Hi).
  destruct (port_of_valid _ Hin) as (j & Hj).
  set (c0 := {| network_of := ntwk; port_out := i; port_in := j;
                position := 0 |}).
  assert (Hopen : trace_open ntwk out_index in_index = Ok c0)
    by (unfold trace_open; rewrite Hi, Hj; reflexivity).
  assert (Htake : forall fuel,
             fst (trace_take fuel c0) = firstn fuel (trace ntwk i j) /\
             position (snd (trace_take fuel c0))
             = List.length (fst (trace_take fuel c0))).
  { intros fuel. destruct (trace_take_points fuel c0 Hwf) as [Hp Hq].
    simpl in Hp, Hq. split; assumption. }
  pose proof (trace_length ntwk Hwf i j) as Hlen.
  assert (Hfull : forall fuel,
             (List.length (Skrf.f ntwk) <= fuel)%nat ->
             fst (trace_take fuel c0) = trace ntwk i j).
  { intros fuel Hfuel. rewrite (proj1 (Htake fuel)).
    apply firstn_all2. lia. }
  exists i, j, c0.
  split; [exact Hi |]. split; [exact Hj |]. split; [exact Hopen |].
  split; [apply Hfull; lia |].
  split; [exact Hlen |].
  split; [now apply trace_frequencies |].
  split; [intros k fr m; now apply trace_nth |].
  split.
  { pose proof (trace_take_frame (List.length (Skrf.f ntwk)) c0)
      as (Hnet & _ & _).
    unfold trace_next. rewrite Hnet. simpl.
    rewrite (proj2 (Htake _)), (Hfull _ (Nat.le_refl _)), Hlen.
    replace (nth_error (Skrf.f ntwk) (List.length (Skrf.f ntwk)))
      with (@None R) by (symmetry; apply nth_error_None; lia).
    reflexivity. }
  split; [exact Hfull |].
  split; [intros k; apply (trace_take_frame k c0) |].
  split.
  { intros k c1 Hc1 fuel.
    rewrite (proj1 (trace_take_frame k c0)) in Hc1. simpl in Hc1.
    rewrite Hopen in Hc1. now injection Hc1 as <-. }
  split; [now apply freq_ghz_of_trace |].
  split; [unfold s11_mag_db; symmetry; now apply trace_magnitudes |].
  split; [unfold s11_phase; symmetry; now apply trace_phases |].
  intros networks before after -> Hall.
  unfold plot_s_parameters_multi.
  rewrite (for_enumerate_ok _ magnitude_line Skrf.well_formed)
    by (auto using magnitude_plot).
  rewrite (for_enumerate_ok _ phase_line Skrf.well_formed)
    by (auto using phase_plot).
  simpl. eexists. split; [reflexivity |]. simpl.
  rewrite !length_map, !enumerate_length.
  repeat split.
  - rewrite nth_error_map, enumerate_nth. reflexivity.
  - rewrite nth_error_map, enumerate_nth. reflexivity.
Qed.

(** One sample at 2.4 GHz, read at the port pair (2, 1). *)
Lemma trace_one_point_per_sample_witness :
  exists c0,
    trace_open
      {| Skrf.f := [2.4e9];
         Skrf.s := [Skrf.SMatrix (Complex (pos 0.1) (pos 0))
                      (Complex (pos 0.9) (pos 0))
                      (Complex (pos 0.9) (pos 0))
                      (Complex (pos 0.1) (pos 0))] |} 2 1 = Ok c0 /\
    fst (trace_take 1 c0)
    = trace {| Skrf.f := [2.4e9];
               Skrf.s := [Skrf.SMatrix (Complex (pos 0.1) (pos 0))
                            (Complex (pos 0.9) (pos 0))
                            (Complex (pos 0.9) (pos 0))
                            (Complex (pos 0.1) (pos 0))] |} P2 P1 /\
    trace_next (snd (trace_take 1 c0)) = None.
Proof.
  destruct (trace_one_point_per_sample
              {| Skrf.f := [2.4e9];
                 Skrf.s := [Skrf.SMatrix (Complex (pos 0.1) (pos 0))
                              (Complex (pos 0.9) (pos 0))
                              (Complex (pos 0.9) (pos 0))
                              (Complex (pos 0.1) (pos 0))] |} 2 1
              eq_refl ltac:(lia) ltac:(lia))
    as (i & j & c0 & Hi & Hj & Hopen & Hpoints & _ & _ & _ & Hend & _).
  injection Hi as <-. injection Hj as <-.
  exists c0. repeat split; assumption.
Defined.

(** ** Further properties of the script *)

(** *** The assessment in terms of the modulus *)

Lemma decibel_threshold (x c : R) :
  0 <= x ->
  (xlt (scale 20 (np_log10 x)) c = true <-> x < Rpower 10 (c / 20)).
Proof.
  intros Hx. pose proof ln_10_pos as H10.
  assert (Hpow : 0 < Rpower 10 (c / 20)) by apply exp_pos.
  unfold np_log10.
  destruct (Rlt_dec 0 x) as [Hp | Hp].
  - simpl.
    assert (Heq : ln x / ln 10 * ln 10 = ln x) by (field; lra).
    destruct (Rlt_dec (20 * (ln x / ln 10)) c) as [Hlt | Hge].
    + split; [intros _ | reflexivity].
      rewrite <- (exp_ln x Hp). unfold Rpower.
      apply exp_increasing. nra.
    + split; [discriminate |]. intros Hlt. exfalso. apply Hge.
      apply ln_increasing in Hlt; [| assumption].
      unfold Rpower in Hlt. rewrite ln_exp in Hlt. nra.
  - destruct (Rlt_dec x 0) as [Hn | Hn]; [lra |].
    simpl. split; [intros _; lra | reflexivity].
Qed.

Lemma decibel_threshold_false (x c : R) :
  0 <= x ->
  (xlt (scale 20 (np_log10 x)) c = false <-> Rpower 10 (c / 20) <= x).
Proof.
  intros Hx. pose proof (decibel_threshold x c Hx) as H.
  destruct (xlt (scale 20 (np_log10 x)) c).
  - split; [discriminate |]. intros Hle.
    assert (x < Rpower 10 (c / 20)) by (now apply H). lra.
  - split; [intros _ | reflexivity].
    destruct (Rle_lt_dec (Rpower 10 (c / 20)) x) as [Hle | Hlt];
      [assumption |].
    apply H in Hlt. discriminate.
Qed.

Lemma half_power_square : Rpower 10 (-10 / 20) * Rpower 10 (-10 / 20) = / 10.
Proof.
  rewrite <- Rpower_plus.
  replace (-10 / 20 + -10 / 20) with (Ropp 1) by field.
  rewrite Rpower_Ropp, Rpower_1 by lra. reflexivity.
Qed.

(** In exact arithmetic the assessment changes at the moduli 10^(-10/20)
    and 10^(-6/20); the first is the root of one tenth. *)
Lemma assessment_in_exact_arithmetic :
  forall z : complex,
    (classify_matching (magnitude_of z) = Good
     <-> np_abs z < Rpower 10 (-10 / 20)) /\
    (classify_matching (magnitude_of z) = Moderate
     <-> Rpower 10 (-10 / 20) <= np_abs z < Rpower 10 (-6 / 20)) /\
    (classify_matching (magnitude_of z) = Poor
     <-> Rpower 10 (-6 / 20) <= np_abs z) /\
    (classify_matching (magnitude_of z) = Good
     <-> 10 * (value (real z) * value (real z)
               + value (imag z) * value (imag z)) < 1).
Proof.
  intros z. pose proof (np_abs_nonneg z) as Hx.
  pose proof (decibel_threshold _ (-10) Hx) as Hg.
  pose proof (decibel_threshold_false _ (-10) Hx) as Hg'.
  pose proof (decibel_threshold _ (-6) Hx) as Hm.
  pose proof (decibel_threshold_false _ (-6) Hx) as Hm'.
  assert (Hlow : Rpower 10 (-10 / 20) < Rpower 10 (-6 / 20)).
  { unfold Rpower. apply exp_increasing. pose proof ln_10_pos. nra. }
  assert (Hgood : classify_matching (magnitude_of z) = Good
                  <-> np_abs z < Rpower 10 (-10 / 20)).
  { unfold classify_matching, magnitude_of in *.
    destruct (xlt (scale 20 (np_log10 (np_abs z))) (-10)).
    - split; [intros _; now apply Hg | reflexivity].
    - split.
      + destruct (xlt (scale 20 (np_log10 (np_abs z))) (-6)); discriminate.
      + intros H. apply Hg in H. discriminate. }
  split; [exact Hgood |]. split; [| split].
  - unfold classify_matching, magnitude_of in *.
    destruct (xlt (scale 20 (np_log10 (np_abs z))) (-10)) eqn:E1.
    + split; [discriminate |]. intros [H _].
      assert (np_abs z < Rpower 10 (-10 / 20)) by (now apply Hg). lra.
    + assert (H1 : Rpower 10 (-10 / 20) <= np_abs z) by (now apply Hg').
      destruct (xlt (scale 20 (np_log10 (np_abs z))) (-6)) eqn:E2.
      * split; [intros _ | reflexivity]. split; [assumption | now apply Hm].
      * split; [discriminate |]. intros [_ H].
        apply Hm in H. discriminate.
  - unfold classify_matching, magnitude_of in *.
    destruct (xlt (scale 20 (np_log10 (np_abs z))) (-10)) eqn:E1.
    + split; [discriminate |]. intros H.
      assert (np_abs z < Rpower 10 (-10 / 20)) by (now apply Hg). lra.
    + destruct (xlt (scale 20 (np_log10 (np_abs z))) (-6)) eqn:E2.
      * split; [discriminate |]. intros H.
        assert (np_abs z < Rpower 10 (-6 / 20)) by (now apply Hm). lra.
      * split; [intros _; now apply Hm' | reflexivity].
  - rewrite Hgood, <- np_abs_square.
    pose proof half_power_square as Hsq.
    assert (Hpos : 0 < Rpower 10 (-10 / 20)) by apply exp_pos.
    split; intros H.
    + assert (np_abs z * np_abs z < / 10) by (rewrite <- Hsq; nra). lra.
    + assert (Hlt : np_abs z * np_abs z
                    < Rpower 10 (-10 / 20) * Rpower 10 (-10 / 20))
        by (rewrite Hsq; lra).
      destruct (Rlt_dec (np_abs z) (Rpower 10 (-10 / 20))); [assumption |].
      exfalso. nra.
Qed.

Lemma six_decibel_power :
  0.25 < Rpower 10 (-6 / 20) * Rpower 10 (-6 / 20) < 0.26.
Proof.
  rewrite <- Rpower_plus.
  set (u := Rpower 10 (-6 / 20 + -6 / 20)).
  assert (Hu : 0 < u) by apply exp_pos.
  assert (H5 : u ^ 5 = / 1000).
  { rewrite <- (Rpower_pow 5 u Hu). unfold u. rewrite Rpower_mult.
    replace ((-6 / 20 + -6 / 20) * INR 5) with (Ropp 3) by (simpl; field).
    rewrite Rpower_Ropp.
    replace 3 with (INR 3) by (simpl; lra).
    rewrite Rpower_pow by lra. f_equal. lra. }
  split.
  - destruct (Rlt_dec 0.25 u) as [H | H]; [exact H | exfalso].
    assert (Hle : u ^ 5 <= 0.25 ^ 5) by (apply pow_incr; lra).
    rewrite H5 in Hle. lra.
  - destruct (Rlt_dec u 0.26) as [H | H]; [exact H | exfalso].
    assert (Hle : 0.26 ^ 5 <= u ^ 5) by (apply pow_incr; lra).
    rewrite H5 in Hle. lra.
Qed.

(** X1.  The assessment follows the reflected power, the squared modulus
    of the sample, with the two thresholds at one tenth (-10 dB) and at
    about a quarter (-6 dB): a sample whose squared modulus is at most 0.09
    is Good, the zero sample, whose magnitude is -inf, among them; from
    0.11 to 0.25 it is Moderate; from 0.26 on it is Poor. *)
Theorem assessment_by_reflected_power :
  forall z : complex,
    let power := value (real z) * value (real z)
                 + value (imag z) * value (imag z) in
    (power <= 0.09 -> classify_matching (magnitude_of z) = Good) /\
    (0.11 <= power <= 0.25 ->
     classify_matching (magnitude_of z) = Moderate) /\
    (0.26 <= power -> classify_matching (magnitude_of z) = Poor).
Proof.
  intros z power. subst power. rewrite <- np_abs_square.
  pose proof (np_abs_nonneg z) as Hx.
  destruct (assessment_in_exact_arithmetic z) as (Hg & Hm & Hp & _).
  pose proof half_power_square as H1.
  pose proof six_decibel_power as H2.
  assert (Ht1 : 0 < Rpower 10 (-10 / 20)) by apply exp_pos.
  assert (Ht2 : 0 < Rpower 10 (-6 / 20)) by apply exp_pos.
  split; [| split].
  - intros H. apply Hg.
    destruct (Rlt_dec (np_abs z) (Rpower 10 (-10 / 20))); [assumption |].
    exfalso. nra.
  - intros [Hlo Hhi]. apply Hm. split.
    + destruct (Rle_dec (Rpower 10 (-10 / 20)) (np_abs z)); [assumption |].
      exfalso. nra.
    + destruct (Rlt_dec (np_abs z) (Rpower 10 (-6 / 20))); [assumption |].
      exfalso. nra.
  - intros H. apply Hp.
    destruct (Rle_dec (Rpower 10 (-6 / 20)) (np_abs z)); [assumption |].
    exfalso. nra.
Qed.

(** The sample 0.1 + 0j, a tenth of the wave reflected in amplitude. *)
Lemma assessment_by_reflected_power_witness :
  classify_matching (magnitude_of (Complex (pos 0.1) (pos 0))) = Good.
Proof.
  apply (proj1 (assessment_by_reflected_power (Complex (pos 0.1) (pos 0)))).
  simpl. lra.
Defined.

(** *** The phase and the signs of the parts *)

Lemma quotient_sign (y x : R) :
  0 < x -> (y < 0 -> y / x < 0) /\ (0 < y -> 0 < y / x).
Proof.
  intros Hx. unfold Rdiv. pose proof (Rinv_0_lt_compat x Hx).
  split; intros Hy; nra.
Qed.

(** The angle takes the sign of the imaginary part, the sign of a zero
    included. *)
Lemma arctan2_sign (y x : float) :
  if signbit y then - PI <= np_arctan2 y x <= 0
  else 0 <= np_arctan2 y x <= PI.
Proof.
  pose proof PI_RGT_0 as Hpi.
  pose proof (atan_bound (value y / value x)) as Hb.
  unfold np_arctan2, signbit.
  destruct (Rlt_dec 0 (value x)) as [Hx | Hx].
  - destruct (quotient_sign (value y) _ Hx) as [Hneg Hpos].
    destruct (Rlt_dec (value y) 0) as [Hy | Hy].
    + pose proof (atan_sign_neg _ (Hneg Hy)). lra.
    + destruct (Rlt_dec 0 (value y)) as [Hy' | Hy'].
      * pose proof (atan_sign_pos _ (Hpos Hy')). lra.
      * assert (Hq : value y / value x = 0).
        { replace (value y) with 0 by lra. unfold Rdiv. ring. }
        rewrite Hq, atan_0. destruct (zero_sign y); lra.
  - destruct (Rlt_dec (value x) 0) as [Hx' | Hx'].
    + destruct (Rlt_dec (value y) 0) as [Hy | Hy].
      * pose proof (atan_sign_pos _ (quotient_neg_neg _ _ Hy Hx')). lra.
      * destruct (Rlt_dec 0 (value y)) as [Hy' | Hy'].
        -- pose proof (atan_sign_neg _ (quotient_pos_neg _ _ Hy' Hx')). lra.
        -- assert (Hq : value y / value x = 0).
           { replace (value y) with 0 by lra. unfold Rdiv. ring. }
           rewrite Hq, atan_0. destruct (zero_sign y); lra.
    + destruct (Rlt_dec 0 (value y)) as [Hy | Hy].
      * destruct (Rlt_dec (value y) 0); lra.
      * destruct (Rlt_dec (value y) 0) as [Hy' | Hy']; [lra |].
        destruct (zero_sign x), (zero_sign y); lra.
Qed.

Lemma degrees_monotone (a b : R) :
  a <= b -> a * (180 / PI) <= b * (180 / PI).
Proof.
  intros H. pose proof PI_RGT_0 as Hpi.
  assert (Hk : 0 < 180 / PI) by (apply Rdiv_lt_0_compat; lra).
  nra.
Qed.

Lemma degrees_of_pi : PI * (180 / PI) = 180.
Proof. pose proof PI_RGT_0. field. lra. Qed.

(** X2.  The phase takes the sign of the imaginary part, the sign of a zero
    imaginary part included: a sample whose imaginary part is negative or a
    negative zero has its phase between -180 and 0, every other sample
    between 0 and 180. *)
Theorem phase_sign_follows_imaginary_part :
  forall z : complex,
    if signbit (imag z) then -180 <= phase_of z <= 0
    else 0 <= phase_of z <= 180.
Proof.
  intros z. unfold phase_of, np_angle.
  pose proof (arctan2_sign (imag z) (real z)) as H.
  pose proof degrees_of_pi as Hpi.
  destruct (signbit (imag z)); destruct H as [Hlo Hhi].
  - pose proof (degrees_monotone _ _ Hlo).
    pose proof (degrees_monotone _ _ Hhi). lra.
  - pose proof (degrees_monotone _ _ Hlo).
    pose proof (degrees_monotone _ _ Hhi). lra.
Qed.

(** X3.  The phase tells the half plane of the sample: with a positive
    real part it lies between -90 and 90 degrees, with a negative real
    part it is at most -90 or at least 90 degrees. *)
Theorem phase_half_planes :
  forall z : complex,
    (0 < value (real z) -> -90 <= phase_of z <= 90) /\
    (value (real z) < 0 -> phase_of z <= -90 \/ 90 <= phase_of z).
Proof.
  intros z. unfold phase_of, np_angle, np_arctan2.
  pose proof PI_RGT_0 as Hpi.
  pose proof (atan_bound (value (imag z) / value (real z))) as Hb.
  assert (Hk : 0 < 180 / PI) by (apply Rdiv_lt_0_compat; lra).
  assert (Hhalf : PI / 2 * (180 / PI) = 90) by (field; lra).
  split; intros Hx.
  - destruct (Rlt_dec 0 (value (real z))) as [_ | Hn]; [| contradiction].
    split; nra.
  - destruct (Rlt_dec 0 (value (real z))) as [Hp | _]; [lra |].
    destruct (Rlt_dec (value (real z)) 0) as [_ | Hn]; [| contradiction].
    destruct (signbit (imag z)); [left | right]; nra.
Qed.

(** The samples 0.1 + 0j and -0.1 + 0j. *)
Lemma phase_half_planes_witness :
  -90 <= phase_of (Complex (pos 0.1) (pos 0)) <= 90 /\
  (phase_of (Complex (Float (-0.1) false) (pos 0)) <= -90 \/
   90 <= phase_of (Complex (Float (-0.1) false) (pos 0))).
Proof.
  split.
  - apply (proj1 (phase_half_planes (Complex (pos 0.1) (pos 0)))).
    simpl. lra.
  - apply (proj2 (phase_half_planes (Complex (Float (-0.1) false) (pos 0)))).
    simpl. lra.
Defined.

(** *** The nearest sample when the target is a sample *)

(** X4.  When the target frequency is itself among the samples of a
    network, [nearest] returns exactly that frequency, at the first
    position where it occurs. *)
Theorem nearest_exact_on_sample :
  forall (ntwk : Network) (target_freq : R),
    Skrf.well_formed ntwk ->
    In target_freq (Skrf.f ntwk) ->
    exists i s11,
      nearest ntwk target_freq = Ok (i, target_freq, s11) /\
      nth_error (Skrf.f ntwk) i = Some target_freq /\
      (forall j, (j < i)%nat ->
                 nth_error (Skrf.f ntwk) j <> Some target_freq).
Proof.
  intros ntwk t Hwf Hin.
  assert (Hne : Skrf.f ntwk <> []) by (intros E; rewrite E in Hin; contradiction).
  destruct (nearest_ok ntwk t Hne Hwf) as (i & freq & z & Hn & Hmin & Hf & _).
  destruct Hmin as (v & Hv & Hle & Hfirst).
  rewrite (distances_nth _ t _ _ Hf) in Hv. injection Hv as <-.
  destruct (In_nth_error _ _ Hin) as (k & Hk).
  pose proof (Hle _ _ (distances_nth _ t _ _ Hk)) as Hzero.
  replace (t - t) with 0 in Hzero by ring. rewrite Rabs_R0 in Hzero.
  assert (Heq : freq = t).
  { pose proof (Rabs_pos (freq - t)).
    assert (Hz : Rabs (freq - t) = 0) by lra.
    destruct (Req_dec (freq - t) 0) as [E | E]; [lra |].
    apply Rabs_no_R0 in E. contradiction. }
  subst freq. exists i, z. repeat split; try assumption.
  intros j Hj Hjt.
  pose proof (Hfirst _ _ Hj (distances_nth _ t _ _ Hjt)) as Hlt. lra.
Qed.

(** The target 2 Hz among the samples 1, 2, 3 Hz. *)
Lemma nearest_exact_on_sample_witness :
  exists i s11,
    nearest {| Skrf.f := [1; 2; 3];
               Skrf.s := repeat (Skrf.SMatrix (Complex (pos 1) (pos 0))
                                   (Complex (pos 0) (pos 0))
                                   (Complex (pos 0) (pos 0))
                                   (Complex (pos 1) (pos 0))) 3 |} 2
    = Ok (i, 2, s11).
Proof.
  destruct (nearest_exact_on_sample
              {| Skrf.f := [1; 2; 3];
                 Skrf.s := repeat (Skrf.SMatrix (Complex (pos 1) (pos 0))
                                     (Complex (pos 0) (pos 0))
                                     (Complex (pos 0) (pos 0))
                                     (Complex (pos 1) (pos 0))) 3 |} 2)
    as (i & z & Hn & _).
  - reflexivity.
  - simpl. right. left. reflexivity.
  - exists i, z. exact Hn.
Defined.

(** *** The analysis stops at a network without samples *)

Lemma analyze_one_empty i ntwk t :
  Skrf.f ntwk = [] -> analyze_one i ntwk t = Raise ValueError.
Proof.
  intros H. unfold analyze_one, nearest, distances. rewrite H. reflexivity.
Qed.

Lemma analyze_loop_stops good bad rest t :
  Forall (fun ntwk => Skrf.f ntwk <> [] /\ Skrf.well_formed ntwk) good ->
  Skrf.f bad = [] ->
  forall i,
  exists rs,
    analyze_loop i good t = (map AntennaReport rs, Ok tt) /\
    analyze_loop i (good ++ bad :: rest) t
    = (map AntennaReport rs, Raise ValueError) /\
    List.length rs = List.length good.
Proof.
  intros Hall Hbad.
  induction Hall as [| ntwk good [Hne Hwf] _ IH]; intros i.
  - exists []. simpl. rewrite (analyze_one_empty _ _ _ Hbad).
    repeat split.
  - destruct (analyze_one_ok i ntwk t Hne Hwf) as (idx & freq & z & _ & Ha).
    destruct (IH (S i)) as (rs & Hgood & Hstop & Hlen).
    eexists (_ :: rs). simpl. rewrite Ha. unfold io_bind. simpl.
    rewrite Hgood, Hstop. simpl. rewrite Hlen. repeat split.
Qed.

(** X5.  The analysis stops at the first network without frequency samples:
    the reports of the networks before it have been printed, exactly as a
    run on those networks alone prints them, the run ends with ValueError,
    and no network after it is reported, whatever it holds. *)
Theorem analyze_frequency_response_stops :
  forall (good : list Network) (bad : Network) (rest : list Network)
         (target_freq : R),
    Forall (fun ntwk => Skrf.f ntwk <> [] /\ Skrf.well_formed ntwk) good ->
    Skrf.f bad = [] ->
    exists rs,
      analyze_frequency_response good target_freq
      = (AnalysisHeader target_freq :: map AntennaReport rs, Ok tt) /\
      analyze_frequency_response (good ++ bad :: rest) target_freq
      = (AnalysisHeader target_freq :: map AntennaReport rs,
         Raise ValueError) /\
      List.length rs = List.length good.
Proof.
  intros good bad rest t Hall Hbad.
  destruct (analyze_loop_stops good bad rest t Hall Hbad 0%nat)
    as (rs & Hgood & Hstop & Hlen).
  exists rs. unfold analyze_frequency_response, io_bind. simpl.
  rewrite Hgood, Hstop. repeat split. exact Hlen.
Qed.

(** A network with one sample, one without, and one more with a sample. *)
Lemma analyze_frequency_response_stops_witness :
  exists rs,
    analyze_frequency_response
      ([{| Skrf.f := [2.4e9];
           Skrf.s := [Skrf.SMatrix (Complex (pos 0.1) (pos 0))
                        (Complex (pos 0.9) (pos 0))
                        (Complex (pos 0.9) (pos 0))
                        (Complex (pos 0.1) (pos 0))] |}]
       ++ {| Skrf.f := []; Skrf.s := [] |}
       :: [{| Skrf.f := [2.4e9];
              Skrf.s := [Skrf.SMatrix (Complex (pos 0.1) (pos 0))
                           (Complex (pos 0.9) (pos 0))
                           (Complex (pos 0.9) (pos 0))
                           (Complex (pos 0.1) (pos 0))] |}])
      2.4e9
    = (AnalysisHeader 2.4e9 :: map AntennaReport rs, Raise ValueError) /\
    List.length rs = 1%nat.
Proof.
  destruct (analyze_frequency_response_stops
              [{| Skrf.f := [2.4e9];
                  Skrf.s := [Skrf.SMatrix (Complex (pos 0.1) (pos 0))
                               (Complex (pos 0.9) (pos 0))
                               (Complex (pos 0.9) (pos 0))
                               (Complex (pos 0.1) (pos 0))] |}]
              {| Skrf.f := []; Skrf.s := [] |}
              [{| Skrf.f := [2.4e9];
                  Skrf.s := [Skrf.SMatrix (Complex (pos 0.1) (pos 0))
                               (Complex (pos 0.9) (pos 0))
                               (Complex (pos 0.9) (pos 0))
                               (Complex (pos 0.1) (pos 0))] |}]
              2.4e9) as (rs & _ & Hstop & Hlen).
  - repeat constructor; discriminate.
  - reflexivity.
  - exists rs. split; assumption.
Defined.

(** *** The order of loading *)

Section SortOrder.

Lemma key_le_trans a b c : key_le a b -> key_le b c -> key_le a c.
Proof. unfold key_le. lia. Qed.

Lemma insert_sorted x sorted :
  StronglySorted key_le sorted -> StronglySorted key_le (Files.insert x sorted).
Proof.
  induction 1 as [| y rest Hs IH Hy]; simpl.
  - repeat constructor.
  - destruct (fst x <=? fst y)%Z eqn:E.
    + apply Z.leb_le in E. constructor.
      * now constructor.
      * constructor; [exact E |].
        eapply Forall_impl; [| exact Hy].
        intros z Hz. now apply key_le_trans with (b := y).
    + apply Z.leb_gt in E. constructor; [exact IH |].
      apply (Permutation_Forall (insert_perm x rest)).
      constructor; [unfold key_le; lia | exact Hy].
Qed.

Lemma sort_sorted keyed : StronglySorted key_le (Files.sort keyed).
Proof.
  induction keyed as [| x rest IH]; simpl;
    [constructor | now apply insert_sorted].
Qed.

Lemma with_keys_keys files keyed :
  Files.with_keys files = Ok keyed ->
  Forall (fun p => Files.sort_key (snd p) = Ok (fst p)) keyed.
Proof.
  revert keyed. induction files as [| y rest IH]; intros keyed; simpl.
  - intros H. injection H as <-. constructor.
  - destruct (Files.sort_key y) as [k | e] eqn:Hy; simpl; [| discriminate].
    destruct (Files.with_keys rest) as [keyed' | e]; simpl; [| discriminate].
    intros H. injection H as <-. constructor; [exact Hy | now apply IH].
Qed.

Lemma keys_sorted (l : list (Z * string)) :
  StronglySorted key_le l -> StronglySorted Z.le (map fst l).
Proof.
  induction 1 as [| y rest Hs IH Hy]; simpl; constructor.
  - exact IH.
  - apply Forall_map. exact Hy.
Qed.

Lemma keys_of_names (l : list (Z * string)) :
  Forall (fun p => Files.sort_key (snd p) = Ok (fst p)) l ->
  Forall2 (fun x k => Files.sort_key x = Ok k) (map snd l) (map fst l).
Proof.
  induction 1 as [| p rest Hp _ IH]; simpl; constructor; assumption.
Qed.

End SortOrder.

(** X6.  When the sort succeeds, the files are visited by ascending antenna
    number: every visited file has a key, the number its stem's digits
    spell, and along the visit these keys never decrease.  The lines
    printed by the loop and the networks returned follow this order. *)
Theorem load_antenna_files_in_key_order :
  forall (rf_Network : reader) (directory files : list string),
    Files.sort_by_number (Files.glob directory) = Ok files ->
    exists keys,
      Forall2 (fun x k => Files.sort_key x = Ok k) files keys /\
      StronglySorted Z.le keys /\
      load_antenna_files rf_Network directory
      = (map (load_event rf_Network) files, Ok (loaded rf_Network files)).
Proof.
  intros rf_Network directory files Hsort.
  pose proof (load_antenna_files_sorted rf_Network _ _ Hsort) as Hload.
  unfold Files.sort_by_number in Hsort.
  destruct (Files.with_keys (Files.glob directory)) as [keyed | e] eqn:Hk;
    simpl in Hsort; [| discriminate].
  injection Hsort as <-.
  exists (map fst (Files.sort keyed)). split; [| split].
  - apply keys_of_names.
    apply (Permutation_Forall (sort_perm keyed)).
    now apply with_keys_keys with (files := Files.glob directory).
  - apply keys_sorted, sort_sorted.
  - exact Hload.
Qed.

(** Files numbered 10, 2 and 1, listed in that order. *)
Lemma load_antenna_files_in_key_order_witness :
  exists keys,
    Forall2 (fun x k => Files.sort_key x = Ok k)
      ["antenna1.s2p"; "antenna2.s2p"; "antenna10.s2p"]%string keys /\
    StronglySorted Z.le keys.
Proof.
  destruct (load_antenna_files_in_key_order
              (fun _ => Raise (OtherError 0))
              ["antenna10.s2p"; "antenna2.s2p"; "antenna1.s2p"]%string
              ["antenna1.s2p"; "antenna2.s2p"; "antenna10.s2p"]%string
              eq_refl) as (keys & Hkeys & Hsorted & _).
  exists keys. split; assumption.
Defined.

(** *** What loading reads, and how it can fail *)

Lemma with_keys_raises files e :
  Files.with_keys files = Raise e ->
  e = ValueError /\ exists x, In x files /\ stem_digits x = [].
Proof.
  induction files as [| y rest IH]; simpl; [discriminate |].
  destruct (sort_key_cases y) as [[Hd Hy] | [_ (k & Hy)]]; rewrite Hy; simpl.
  - intros H. injection H as <-. split; [reflexivity |].
    exists y. split; [now left | assumption].
  - destruct (Files.with_keys rest) as [keyed | e'] eqn:Hr; simpl;
      [discriminate |].
    intros H. injection H as <-.
    destruct (IH eq_refl) as (He & x & Hin & Hx).
    split; [assumption |]. exists x. split; [now right | assumption].
Qed.

(** X7.  The only exception [load_antenna_files] can end with is the
    ValueError of the sort key: if it raises, then the key of some matched
    file name could not be computed, and nothing has been printed.
    Whatever the reader raises on a file is caught by the loop and never
    reaches the caller. *)
Theorem load_antenna_files_only_raises_value_error :
  forall (rf_Network : reader) (directory : list string) (e : exn),
    snd (load_antenna_files rf_Network directory) = Raise e ->
    e = ValueError /\
    fst (load_antenna_files rf_Network directory) = [] /\
    exists name,
      In name (Files.glob directory) /\
      Files.sort_key name = Raise ValueError.
Proof.
  intros rf_Network directory e.
  unfold load_antenna_files, io_bind, lift, Files.sort_by_number.
  destruct (Files.with_keys (Files.glob directory)) as [keyed | e'] eqn:Hk;
    simpl.
  - rewrite load_loop_spec. simpl. discriminate.
  - intros H. injection H as <-.
    destruct (with_keys_raises _ _ Hk) as (He & x & Hin & Hx).
    split; [assumption |]. split; [reflexivity |].
    exists x. split; [assumption |].
    destruct (sort_key_cases x) as [[_ Hkey] | [Hd _]];
      [assumption | contradiction].
Qed.

(** A reader that refuses every file, and a matched name without digit. *)
Lemma load_antenna_files_only_raises_value_error_witness :
  OtherError 7 <> ValueError /\
  exists name,
    In name (Files.glob ["antenna3.s2p"; "antenna_b.s2p"]%string) /\
    Files.sort_key name = Raise ValueError.
Proof.
  split; [discriminate |].
  apply (load_antenna_files_only_raises_value_error
           (fun _ => Raise (OtherError 7))
           ["antenna3.s2p"; "antenna_b.s2p"]%string ValueError).
  reflexivity.
Defined.

Lemma loaded_ext (rf rf' : reader) files :
  (forall name, In name files -> rf name = rf' name) ->
  loaded rf files = loaded rf' files /\
  map (load_event rf) files = map (load_event rf') files.
Proof.
  induction files as [| x rest IH]; intros H; [split; reflexivity |].
  destruct IH as [IHl IHe]; [intros name Hn; apply H; now right |].
  unfold loaded in *. simpl. unfold load_event at 1 3.
  rewrite (H x) by now left. rewrite IHl, IHe. split; reflexivity.
Qed.

(** X8.  Loading reads only entries of the directory that match the pattern
    antenna*.s2p: two readers that agree on these entries give the same
    printed lines and the same result, however they differ on every other
    name. *)
Theorem load_antenna_files_reads_matched_only :
  forall (rf_Network rf_Network' : reader) (directory : list string),
    (forall name,
        In name directory -> Files.fnmatch name = true ->
        rf_Network name = rf_Network' name) ->
    load_antenna_files rf_Network directory
    = load_antenna_files rf_Network' directory.
Proof.
  intros rf rf' directory Hagree.
  destruct (Files.sort_by_number (Files.glob directory)) as [files | e] eqn:Hs.
  - rewrite !(load_antenna_files_sorted _ _ _ Hs).
    destruct (loaded_ext rf rf' files) as [Hl He].
    + intros name Hin.
      apply (Permutation_in _ (Permutation_sym (sort_by_number_perm _ _ Hs)))
        in Hin.
      apply filter_In in Hin. now apply Hagree.
    + now rewrite Hl, He.
  - unfold load_antenna_files, io_bind, lift. rewrite Hs. reflexivity.
Qed.

(** Two readers that differ on notes.txt only. *)
Lemma load_antenna_files_reads_matched_only_witness :
  load_antenna_files
    (fun name => if String.eqb name "notes.txt" then Raise (OtherError 1)
                 else Ok {| Skrf.f := [2.4e9]; Skrf.s := [] |})
    ["notes.txt"; "antenna1.s2p"]%string
  = load_antenna_files
      (fun _ => Ok {| Skrf.f := [2.4e9]; Skrf.s := [] |})
      ["notes.txt"; "antenna1.s2p"]%string.
Proof.
  apply (load_antenna_files_reads_matched_only
           (fun name => if String.eqb name "notes.txt" then Raise (OtherError 1)
                        else Ok {| Skrf.f := [2.4e9]; Skrf.s := [] |})
           (fun _ => Ok {| Skrf.f := [2.4e9]; Skrf.s := [] |})
           ["notes.txt"; "antenna1.s2p"]%string).
  intros name [<- | [<- | []]] Hm.
  - discriminate Hm.
  - reflexivity.
Defined.

Lemma loaded_count (rf : reader) files :
  List.length (loaded rf files)
  = List.length (filter is_loaded (map (load_event rf) files)).
Proof.
  induction files as [| x rest IH]; [reflexivity |].
  unfold loaded in *. simpl. unfold load_event at 1.
  destruct (rf x); simpl; now rewrite IH.
Qed.

(** X9.  When loading ends normally it has printed exactly one line per
    matched file, and it returns as many networks as it printed "Loaded"
    lines: no file is skipped without a line, and no network is returned
    for a file reported as failed. *)
Theorem load_antenna_files_counts :
  forall (rf_Network : reader) (directory : list string)
         (log : list event) (networks : list Network),
    load_antenna_files rf_Network directory = (log, Ok networks) ->
    List.length log = List.length (Files.glob directory) /\
    List.length networks = List.length (filter is_loaded log) /\
    (List.length networks <= List.length (Files.glob directory))%nat.
Proof.
  intros rf directory log networks H.
  destruct (Files.sort_by_number (Files.glob directory)) as [files | e] eqn:Hs.
  - rewrite (load_antenna_files_sorted _ _ _ Hs) in H.
    injection H as <- <-.
    pose proof (Permutation_length (sort_by_number_perm _ _ Hs)) as Hlen.
    rewrite length_map, loaded_count. repeat split; try lia.
    rewrite Hlen, <- (length_map (load_event rf) files).
    apply filter_length_le.
  - unfold load_antenna_files, io_bind, lift in H. rewrite Hs in H.
    discriminate H.
Qed.

(** Three matched files, one of them refused. *)
Lemma load_antenna_files_counts_witness :
  List.length
    (Files.glob ["antenna1.s2p"; "antenna2.s2p"; "antenna3.s2p"]%string)
  = 3%nat.
Proof.
  destruct (load_antenna_files_counts
              (fun name => if String.eqb name "antenna2.s2p"
                           then Raise (OtherError 2)
                           else Ok {| Skrf.f := [2.4e9]; Skrf.s := [] |})
              ["antenna1.s2p"; "antenna2.s2p"; "antenna3.s2p"]%string
              [Loaded "antenna1.s2p";
               ErrorLoading "antenna2.s2p" (OtherError 2);
               Loaded "antenna3.s2p"]
              (repeat {| Skrf.f := [2.4e9]; Skrf.s := [] |} 2)
              eq_refl) as (Hlog & _).
  symmetry. exact Hlog.
Defined.

(** *** The stem of a matched file name *)

Section Stem.

Local Open Scope string_scope.

Lemma substring_whole s : substring 0 (String.length s) s = s.
Proof. induction s as [| c s IH]; simpl; [reflexivity | now rewrite IH]. Qed.

Lemma split_at_suffix s :
  forall n t,
    substring n (String.length t) s = t ->
    (n + String.length t = String.length s)%nat ->
    s = substring 0 n s ++ t.
Proof.
  induction s as [| c s IH]; intros n t Hsub Hlen.
  - destruct n, t; simpl in *; try discriminate; reflexivity.
  - destruct n as [| n].
    + simpl in Hlen. rewrite Hlen in Hsub. simpl in Hsub.
      rewrite substring_whole in Hsub. now rewrite <- Hsub.
    + simpl in *. f_equal. apply IH; [assumption | lia].
Qed.

Lemma chars_append a b :
  list_ascii_of_string (a ++ b)
  = (list_ascii_of_string a ++ list_ascii_of_string b)%list.
Proof. induction a as [| c a IH]; simpl; [reflexivity | now rewrite IH]. Qed.

Lemma chars_length s :
  List.length (list_ascii_of_string s) = String.length s.
Proof. induction s as [| c s IH]; simpl; [reflexivity | now rewrite IH]. Qed.

Lemma append_length a b :
  String.length (a ++ b) = (String.length a + String.length b)%nat.
Proof. induction a as [| c a IH]; simpl; [reflexivity | now rewrite IH]. Qed.

Lemma rfind_dot_extension (a : list ascii) :
  forall i,
    Files.rfind_dot (a ++ list_ascii_of_string ".s2p")%list i
    = Some (i + List.length a)%nat.
Proof.
  induction a as [| c a IH]; intros i; simpl.
  - now rewrite Nat.add_0_r.
  - rewrite IH. f_equal. lia.
Qed.

Lemma stem_drops_extension base :
  (0 < String.length base)%nat -> Files.stem (base ++ ".s2p") = base.
Proof.
  intros Hpos. unfold Files.stem.
  rewrite chars_append, (rfind_dot_extension _ 0%nat). simpl Nat.add.
  rewrite length_app, chars_length. simpl List.length.
  replace (0 <? String.length base)%nat with true
    by (symmetry; now apply Nat.ltb_lt).
  replace (String.length base <? String.length base + 4 - 1)%nat with true
    by (symmetry; apply Nat.ltb_lt; lia).
  simpl. rewrite <- (chars_length base) at 1.
  rewrite firstn_app, firstn_all, Nat.sub_diag. simpl.
  rewrite app_nil_r. apply string_of_list_ascii_of_string.
Qed.

End Stem.

(** X10.  Every name that matches antenna*.s2p is a base followed by the
    extension .s2p, and its stem is that base: the digit 2 of the extension
    never counts towards the antenna number, while every digit of the base,
    also behind a further dot, does. *)
Theorem stem_of_matched_name :
  forall name : string,
    Files.fnmatch name = true ->
    exists base : string,
      name = (base ++ ".s2p")%string /\
      (7 <= String.length base)%nat /\
      Files.stem name = base /\
      stem_digits name = filter Files.isdigit (list_ascii_of_string base).
Proof.
  intros name H. unfold Files.fnmatch in H.
  apply andb_true_iff in H. destruct H as [H Hlen].
  apply andb_true_iff in H. destruct H as [_ Hext].
  apply Nat.leb_le in Hlen. apply String.eqb_eq in Hext.
  pose proof (split_at_suffix name (String.length name - 4) ".s2p"%string
                Hext) as Hsplit.
  simpl String.length in Hsplit.
  specialize (Hsplit ltac:(lia)).
  set (base := substring 0 (String.length name - 4) name) in *.
  assert (Hbase : (7 <= String.length base)%nat).
  { pose proof (f_equal String.length Hsplit) as Hl.
    rewrite append_length in Hl. simpl in Hl. lia. }
  exists base. split; [exact Hsplit |]. split; [exact Hbase |].
  assert (Hstem : Files.stem name = base).
  { rewrite Hsplit at 1. apply stem_drops_extension. lia. }
  split; [exact Hstem |]. unfold stem_digits. now rewrite Hstem.
Qed.

(** The name antenna1.v3.s2p, whose key is 13. *)
Lemma stem_of_matched_name_witness :
  exists base : string,
    "antenna1.v3.s2p"%string = (base ++ ".s2p")%string /\
    Files.stem "antenna1.v3.s2p" = base.
Proof.
  destruct (stem_of_matched_name "antenna1.v3.s2p" eq_refl)
    as (base & Hname & _ & Hstem & _).
  exists base. split; assumption.
Defined.

(** *** The figures *)

Lemma for_enumerate_upto {A B : Type} (body : nat -> A -> result B)
  (g : nat -> A -> B) (bound : nat) :
  (forall i x, (i < bound)%nat -> body i x = Ok (g i x)) ->
  forall l i,
    (i + List.length l <= bound)%nat ->
    for_enumerate body i l
    = Ok (map (fun p => g (fst p) (snd p)) (enumerate i l)).
Proof.
  intros Hbody. induction l as [| x rest IH]; intros i Hle.
  - reflexivity.
  - simpl in Hle. simpl. rewrite Hbody by lia. simpl.
    rewrite (IH (S i)) by lia. reflexivity.
Qed.

Lemma enumerate_indices {A : Type} (l : list A) i :
  map fst (enumerate i l) = seq i (List.length l).
Proof. unfold enumerate. apply combine_fst. now rewrite length_seq. Qed.

Lemma enumerate_items {A : Type} (l : list A) i :
  map snd (enumerate i l) = l.
Proof. unfold enumerate. apply combine_snd. now rewrite length_seq. Qed.

Lemma grid_bounds (n : Z) :
  (1 <= n)%Z ->
  let cols := Z.min 3 n in
  let rows := ((n - 1) / cols + 1)%Z in
  (1 <= cols <= 3)%Z /\ ((rows - 1) * cols < n <= rows * cols)%Z.
Proof.
  intros Hn cols rows. subst rows.
  assert (Hc : (1 <= cols <= 3)%Z) by (subst cols; lia).
  split; [exact Hc |].
  pose proof (Z.mul_div_le (n - 1) cols ltac:(lia)).
  pose proof (Z.mul_succ_div_gt (n - 1) cols ltac:(lia)).
  nia.
Qed.

Lemma plot_smith_charts_ok networks :
  networks <> [] ->
  let n := Z.of_nat (List.length networks) in
  plot_smith_charts networks
  = Ok {| n_rows := (n - 1) / Z.min 3 n + 1;
          n_cols := Z.min 3 n;
          charts := map (fun p => ((Z.of_nat (fst p) + 1)%Z,
                                   s_flat (snd p) P1 P1))
                      (enumerate 0 networks) |}.
Proof.
  intros Hne n.
  assert (Hn : (1 <= n)%Z).
  { subst n. destruct networks; [contradiction | simpl; lia]. }
  destruct (grid_bounds n Hn) as [Hc Hgrid].
  unfold plot_smith_charts, floordiv. fold n.
  replace (Z.min 3 n =? 0)%Z with false by (symmetry; apply Z.eqb_neq; lia).
  simpl bind.
  rewrite (for_enumerate_upto _
             (fun i ntwk => ((Z.of_nat i + 1)%Z, s_flat ntwk P1 P1))
             (List.length networks)).
  - reflexivity.
  - intros i x Hi. unfold subplot.
    replace ((1 <=? Z.of_nat i + 1)
             && (Z.of_nat i + 1 <=? ((n - 1) / Z.min 3 n + 1) * Z.min 3 n))%Z
      with true; [reflexivity |].
    symmetry. apply andb_true_iff. split; apply Z.leb_le; subst n; lia.
  - simpl. lia.
Qed.

(** X11.  [plot_smith_charts] cannot lay out an empty list: the number of
    columns is then 0 and the division of line 79 raises
    ZeroDivisionError.  For any other list it succeeds: the grid has
    between one and three columns, has room for every antenna and no spare
    row, and holds one chart per network, in list order, at the subplot
    positions 1, 2, 3 and so on, each inside the grid. *)
Theorem plot_smith_charts_grid :
  forall networks : list Network,
    let n := Z.of_nat (List.length networks) in
    match networks with
    | [] => plot_smith_charts networks = Raise ZeroDivisionError
    | _ :: _ =>
        exists fig,
          plot_smith_charts networks = Ok fig /\
          (1 <= n_cols fig <= 3)%Z /\
          ((n_rows fig - 1) * n_cols fig < n <= n_rows fig * n_cols fig)%Z /\
          map fst (charts fig)
          = map (fun i => (Z.of_nat i + 1)%Z) (seq 0 (List.length networks)) /\
          map snd (charts fig) = map (fun ntwk => s_flat ntwk P1 P1) networks
    end.
Proof.
  intros networks n. destruct networks as [| ntwk rest].
  - reflexivity.
  - assert (Hn : (1 <= n)%Z) by (subst n; simpl List.length; lia).
    remember (ntwk :: rest) as networks eqn:E.
    assert (Hne : networks <> []) by (rewrite E; discriminate).
    destruct (grid_bounds n Hn) as [Hc Hgrid].
    eexists. split; [now apply plot_smith_charts_ok |]. simpl.
    fold n. split; [exact Hc |]. split; [exact Hgrid |]. split.
    + rewrite map_map. simpl.
      rewrite <- (enumerate_indices networks 0), map_map. reflexivity.
    + rewrite map_map. simpl.
      rewrite <- (enumerate_items networks 0) at 2.
      now rewrite map_map.
Qed.

Lemma plot_s_parameters_multi_ok networks :
  Forall Skrf.well_formed networks ->
  plot_s_parameters_multi networks
  = Ok {| ax1 := map (fun p => magnitude_line (fst p) (snd p))
                   (enumerate 0 networks);
          ax2 := map (fun p => phase_line (fst p) (snd p))
                   (enumerate 0 networks) |}.
Proof.
  intros Hall. unfold plot_s_parameters_multi.
  rewrite (for_enumerate_ok _ magnitude_line Skrf.well_formed)
    by (auto using magnitude_plot).
  rewrite (for_enumerate_ok _ phase_line Skrf.well_formed)
    by (auto using phase_plot).
  reflexivity.
Qed.

Lemma lines_of_networks {Y : Type} (line : nat -> Network -> Line Y)
  (Q : Line Y -> Network -> Prop) :
  (forall i ntwk, Skrf.well_formed ntwk -> Q (line i ntwk) ntwk) ->
  forall networks i,
    Forall Skrf.well_formed networks ->
    Forall2 Q (map (fun p => line (fst p) (snd p)) (enumerate i networks))
      networks.
Proof.
  intros HQ. induction networks as [| ntwk rest IH]; intros i Hall.
  - constructor.
  - inversion Hall as [| ? ? Hwf Hrest]; subst.
    change (enumerate i (ntwk :: rest))
      with ((i, ntwk) :: enumerate (S i) rest).
    simpl. constructor; [now apply HQ | now apply IH].
Qed.

Lemma line_labels {Y : Type} (line : nat -> Network -> Line Y) networks :
  (forall i ntwk, label (line i ntwk) = S i) ->
  map label (map (fun p => line (fst p) (snd p)) (enumerate 0 networks))
  = seq 1 (List.length networks).
Proof.
  intros Hl. rewrite map_map.
  rewrite (map_ext _ (fun p => S (fst p))) by (intros p; apply Hl).
  rewrite <- (map_map fst S), enumerate_indices. apply seq_shift.
Qed.

(** X12.  On networks with as many matrices as frequencies,
    [plot_s_parameters_multi] succeeds and draws, on each of the two axes,
    one line per network in list order.  The lines are labelled 1, 2, 3 and
    so on by position in the list, not by the number in a file name; the
    x data of a line is the frequency list divided by 1e9, and its y data
    holds the magnitude, or the phase, of every S11 sample. *)
Theorem plot_s_parameters_multi_lines :
  forall networks : list Network,
    Forall Skrf.well_formed networks ->
    exists fig,
      plot_s_parameters_multi networks = Ok fig /\
      map label (ax1 fig) = seq 1 (List.length networks) /\
      map label (ax2 fig) = seq 1 (List.length networks) /\
      Forall2 (fun line ntwk =>
                 xdata line = map (fun x => x / 1e9) (Skrf.f ntwk) /\
                 ydata line = map magnitude_of (s_flat ntwk P1 P1) /\
                 List.length (ydata line) = List.length (xdata line))
        (ax1 fig) networks /\
      Forall2 (fun line ntwk =>
                 xdata line = map (fun x => x / 1e9) (Skrf.f ntwk) /\
                 ydata line = map phase_of (s_flat ntwk P1 P1) /\
                 List.length (ydata line) = List.length (xdata line))
        (ax2 fig) networks.
Proof.
  intros networks Hall. eexists.
  split; [now apply plot_s_parameters_multi_ok |]. simpl.
  split; [now apply line_labels |]. split; [now apply line_labels |].
  split.
  - apply lines_of_networks; [| exact Hall].
    intros i ntwk Hwf. simpl.
    rewrite <- (freq_ghz_of_trace ntwk Hwf), (trace_magnitudes ntwk Hwf).
    unfold freq_ghz. repeat split.
    now rewrite !length_map, s_flat_length.
  - apply lines_of_networks; [| exact Hall].
    intros i ntwk Hwf. simpl.
    rewrite <- (freq_ghz_of_trace ntwk Hwf), (trace_phases ntwk Hwf).
    unfold freq_ghz. repeat split.
    now rewrite !length_map, s_flat_length.
Qed.

(** Two networks with one sample each. *)
Lemma plot_s_parameters_multi_lines_witness :
  exists fig,
    plot_s_parameters_multi
      (repeat {| Skrf.f := [2.4e9];
                 Skrf.s := [Skrf.SMatrix (Complex (pos 0.1) (pos 0))
                              (Complex (pos 0.9) (pos 0))
                              (Complex (pos 0.9) (pos 0))
                              (Complex (pos 0.1) (pos 0))] |} 2)
    = Ok fig /\
    map label (ax1 fig) = [1; 2]%nat.
Proof.
  destruct (plot_s_parameters_multi_lines
              (repeat {| Skrf.f := [2.4e9];
                         Skrf.s := [Skrf.SMatrix (Complex (pos 0.1) (pos 0))
                                      (Complex (pos 0.9) (pos 0))
                                      (Complex (pos 0.9) (pos 0))
                                      (Complex (pos 0.1) (pos 0))] |} 2))
    as (fig & Hplot & Hlabels & _).
  - repeat constructor.
  - exists fig. split; assumption.
Defined.

(** *** A whole run *)

Lemma is_empty_false {A : Type} (l : list A) : l <> [] -> is_empty l = false.
Proof. destruct l; [contradiction | reflexivity]. Qed.

Lemma visualize_all_antennas_ok rf_Network directory save_plots log networks :
  load_antenna_files rf_Network directory = (log, Ok networks) ->
  networks <> [] ->
  Forall Skrf.well_formed networks ->
  exists s_param_fig smith_fig,
    plot_s_parameters_multi networks = Ok s_param_fig /\
    plot_smith_charts networks = Ok smith_fig /\
    visualize_all_antennas rf_Network directory save_plots
    = (log ++ (if save_plots
               then [SavedFigure "s_parameters.png";
                     SavedFigure "smith_charts.png"]
               else []),
       Ok (Some (s_param_fig, smith_fig))).
Proof.
  intros Hload Hne Hall.
  pose proof (plot_s_parameters_multi_ok networks Hall) as Hplot.
  pose proof (plot_smith_charts_ok networks Hne) as Hsmith.
  simpl in Hsmith.
  do 2 eexists. split; [exact Hplot |]. split; [exact Hsmith |].
  unfold visualize_all_antennas, io_bind. rewrite Hload. simpl.
  rewrite (is_empty_false _ Hne), Hplot, Hsmith. simpl.
  destruct save_plots; reflexivity.
Qed.

(** X13.  When loading yields at least one network, and the networks have
    as many matrices as frequencies, [visualize_all_antennas] returns the
    pair of the S-parameter figure and the Smith figure of exactly these
    networks, never None.  After the lines of the loading it reports the
    two saved images, s_parameters.png before smith_charts.png, when
    [save_plots] is set, and nothing more when it is not. *)
Theorem visualize_all_antennas_returns_figures :
  forall (rf_Network : reader) (directory : list string) (save_plots : bool)
         (log : list event) (networks : list Network),
    load_antenna_files rf_Network directory = (log, Ok networks) ->
    networks <> [] ->
    Forall Skrf.well_formed networks ->
    exists s_param_fig smith_fig,
      plot_s_parameters_multi networks = Ok s_param_fig /\
      plot_smith_charts networks = Ok smith_fig /\
      visualize_all_antennas rf_Network directory save_plots
      = (log ++ (if save_plots
                 then [SavedFigure "s_parameters.png";
                       SavedFigure "smith_charts.png"]
                 else []),
         Ok (Some (s_param_fig, smith_fig))).
Proof.
  intros. now apply visualize_all_antennas_ok.
Qed.

(** One antenna file with one sample, images saved. *)
Lemma visualize_all_antennas_returns_figures_witness :
  exists s_param_fig smith_fig,
    visualize_all_antennas
      (fun _ => Ok {| Skrf.f := [2.4e9];
                      Skrf.s := [Skrf.SMatrix (Complex (pos 0.1) (pos 0))
                                   (Complex (pos 0.9) (pos 0))
                                   (Complex (pos 0.9) (pos 0))
                                   (Complex (pos 0.1) (pos 0))] |})
      ["antenna1.s2p"]%string true
    = ([Loaded "antenna1.s2p"; SavedFigure "s_parameters.png";
        SavedFigure "smith_charts.png"],
       Ok (Some (s_param_fig, smith_fig))).
Proof.
  destruct (visualize_all_antennas_returns_figures
              (fun _ => Ok {| Skrf.f := [2.4e9];
                              Skrf.s := [Skrf.SMatrix
                                           (Complex (pos 0.1) (pos 0))
                                           (Complex (pos 0.9) (pos 0))
                                           (Complex (pos 0.9) (pos 0))
                                           (Complex (pos 0.1) (pos 0))] |})
              ["antenna1.s2p"]%string true
              [Loaded "antenna1.s2p"]
              [{| Skrf.f := [2.4e9];
                  Skrf.s := [Skrf.SMatrix (Complex (pos 0.1) (pos 0))
                               (Complex (pos 0.9) (pos 0))
                               (Complex (pos 0.9) (pos 0))
                               (Complex (pos 0.1) (pos 0))] |}])
    as (fig & smith & _ & _ & Hv).
  - reflexivity.
  - discriminate.
  - repeat constructor.
  - exists fig, smith. exact Hv.
Defined.

Lemma nonempty_well_formed networks :
  Forall (fun ntwk => Skrf.f ntwk <> [] /\ Skrf.well_formed ntwk) networks ->
  Forall Skrf.well_formed networks.
Proof. intros H. eapply Forall_impl; [| exact H]. intros n [_ Hw]. exact Hw. Qed.

(** X14.  A run of the script on a directory whose files load into at least
    one network, every network with a sample, ends normally.  Every matched
    file is read twice, once for the figures and once for the analysis, so
    the lines of the loading are printed twice; in between the two images
    are saved; then the analysis at 2.4 GHz prints its heading and one
    report per network; the plots are shown last. *)
Theorem main_complete_run :
  forall (rf_Network : reader) (data_dir : list string)
         (log : list event) (networks : list Network),
    load_antenna_files rf_Network data_dir = (log, Ok networks) ->
    networks <> [] ->
    Forall (fun ntwk => Skrf.f ntwk <> [] /\ Skrf.well_formed ntwk) networks ->
    exists rs,
      main rf_Network data_dir
      = (log
         ++ [SavedFigure "s_parameters.png"; SavedFigure "smith_charts.png"]
         ++ log
         ++ AnalysisHeader 2.4e9 :: map AntennaReport rs
         ++ [ShowPlots],
         Ok tt) /\
      List.length rs = List.length networks /\
      map antenna rs = seq 1 (List.length networks).
Proof.
  intros rf_Network data_dir log networks Hload Hne Hall.
  destruct (visualize_all_antennas_ok rf_Network data_dir true log networks
              Hload Hne (nonempty_well_formed _ Hall))
    as (fig & smith & _ & _ & Hv).
  destruct (analyze_loop_ok networks 2.4e9 Hall 0%nat)
    as (rs & Hrun & Hlen & Hnth).
  exists rs. split; [| split; [exact Hlen |]].
  - unfold main, io_bind. rewrite Hv. simpl. rewrite Hload. simpl.
    rewrite (is_empty_false _ Hne).
    unfold analyze_frequency_response, io_bind. simpl.
    rewrite Hrun. simpl. rewrite <- app_assoc. reflexivity.
  - apply nth_error_ext. intros k.
    rewrite nth_error_map.
    destruct (nth_error networks k) as [ntwk |] eqn:Hk.
    + destruct (Hnth k ntwk Hk) as (idx & freq & z & _ & Hr).
      rewrite Hr. simpl.
      assert (Hlt : (k < List.length networks)%nat)
        by (apply nth_error_Some; congruence).
      rewrite nth_error_seq.
      replace (k <? List.length networks)%nat with true
        by (symmetry; now apply Nat.ltb_lt).
      reflexivity.
    + apply nth_error_None in Hk.
      assert (Hrs : nth_error rs k = None)
        by (apply nth_error_None; lia).
      rewrite Hrs. simpl. symmetry.
      apply nth_error_None. rewrite length_seq. exact Hk.
Qed.

(** One antenna file with one sample. *)
Lemma main_complete_run_witness :
  exists rs,
    main (fun _ => Ok {| Skrf.f := [2.4e9];
                         Skrf.s := [Skrf.SMatrix (Complex (pos 0.1) (pos 0))
                                      (Complex (pos 0.9) (pos 0))
                                      (Complex (pos 0.9) (pos 0))
                                      (Complex (pos 0.1) (pos 0))] |})
      ["antenna1.s2p"]%string
    = ([Loaded "antenna1.s2p"; SavedFigure "s_parameters.png";
        SavedFigure "smith_charts.png"; Loaded "antenna1.s2p";
        AnalysisHeader 2.4e9] ++ map AntennaReport rs ++ [ShowPlots],
       Ok tt) /\
    List.length rs = 1%nat.
Proof.
  destruct (main_complete_run
              (fun _ => Ok {| Skrf.f := [2.4e9];
                              Skrf.s := [Skrf.SMatrix
                                           (Complex (pos 0.1) (pos 0))
                                           (Complex (pos 0.9) (pos 0))
                                           (Complex (pos 0.9) (pos 0))
                                           (Complex (pos 0.1) (pos 0))] |})
              ["antenna1.s2p"]%string
              [Loaded "antenna1.s2p"]
              [{| Skrf.f := [2.4e9];
                  Skrf.s := [Skrf.SMatrix (Complex (pos 0.1) (pos 0))
                               (Complex (pos 0.9) (pos 0))
                               (Complex (pos 0.9) (pos 0))
                               (Complex (pos 0.1) (pos 0))] |}])
    as (rs & Hmain & Hlen & _).
  - reflexivity.
  - discriminate.
  - constructor; [split; [discriminate | reflexivity] | constructor].
  - exists rs. split; [exact Hmain | exact Hlen].
Defined.

(** X15.  A single matched file name without a digit in its stem ends the
    whole script with ValueError before anything is read, drawn or printed:
    the exception of the sort key passes through [visualize_all_antennas]
    and the script body, neither of which catches it. *)
Theorem main_aborts_on_stem_without_digit :
  forall (rf_Network : reader) (data_dir : list string) (name : string)
         (save_plots : bool),
    In name (Files.glob data_dir) ->
    stem_digits name = [] ->
    visualize_all_antennas rf_Network data_dir save_plots
    = ([], Raise ValueError) /\
    main rf_Network data_dir = ([], Raise ValueError).
Proof.
  intros rf_Network data_dir name save_plots Hin Hd.
  assert (Hload : load_antenna_files rf_Network data_dir
                  = ([], Raise ValueError)).
  { unfold load_antenna_files, io_bind, lift, Files.sort_by_number.
    now rewrite (with_keys_fails _ _ Hin Hd). }
  assert (Hv : forall b, visualize_all_antennas rf_Network data_dir b
                         = ([], Raise ValueError)).
  { intros b. unfold visualize_all_antennas, io_bind. now rewrite Hload. }
  split; [apply Hv |].
  unfold main, io_bind. now rewrite Hv.
Qed.

(** Four good antenna files and one named antenna_ref.s2p. *)
Lemma main_aborts_on_stem_without_digit_witness :
  main (fun _ => Ok {| Skrf.f := [2.4e9]; Skrf.s := [] |})
    ["antenna1.s2p"; "antenna2.s2p"; "antenna_ref.s2p"; "antenna3.s2p";
     "antenna4.s2p"]%string
  = ([], Raise ValueError).
Proof.
  apply (main_aborts_on_stem_without_digit
           (fun _ => Ok {| Skrf.f := [2.4e9]; Skrf.s := [] |})
           ["antenna1.s2p"; "antenna2.s2p"; "antenna_ref.s2p"; "antenna3.s2p";
            "antenna4.s2p"]%string "antenna_ref.s2p"%string true).
  - simpl. right. right. left. reflexivity.
  - reflexivity.
Defined.

(** *** Files with the same antenna number *)

Lemma insert_filter_key k x sorted :
  filter (fun p => (fst p =? k)%Z) (Files.insert x sorted)
  = filter (fun p => (fst p =? k)%Z) (x :: sorted).
Proof.
  induction sorted as [| y rest IH]; [reflexivity |].
  simpl Files.insert.
  destruct (fst x <=? fst y)%Z eqn:E; [reflexivity |].
  apply Z.leb_gt in E.
  simpl in *. rewrite IH.
  destruct (fst x =? k)%Z eqn:Ex; [| reflexivity].
  apply Z.eqb_eq in Ex.
  replace (fst y =? k)%Z with false by (symmetry; apply Z.eqb_neq; lia).
  reflexivity.
Qed.

Lemma sort_filter_key k keyed :
  filter (fun p => (fst p =? k)%Z) (Files.sort keyed)
  = filter (fun p => (fst p =? k)%Z) keyed.
Proof.
  induction keyed as [| x rest IH]; [reflexivity |].
  simpl Files.sort. rewrite insert_filter_key. simpl. now rewrite IH.
Qed.

Lemma filter_names_by_key k (l : list (Z * string)) :
  Forall (fun p => Files.sort_key (snd p) = Ok (fst p)) l ->
  filter (has_key k) (map snd l)
  = map snd (filter (fun p => (fst p =? k)%Z) l).
Proof.
  induction 1 as [| p rest Hp _ IH]; [reflexivity |].
  simpl. unfold has_key at 1. rewrite Hp, IH.
  destruct (fst p =? k)%Z; reflexivity.
Qed.

(** X16.  The sort by antenna number is stable: the files that share an
    antenna number, such as antenna1.s2p and antenna01.s2p, are visited in
    the order in which the directory lists them. *)
Theorem load_order_is_stable :
  forall (directory files : list string) (k : Z),
    Files.sort_by_number (Files.glob directory) = Ok files ->
    filter (has_key k) files = filter (has_key k) (Files.glob directory).
Proof.
  intros directory files k Hsort. unfold Files.sort_by_number in Hsort.
  destruct (Files.with_keys (Files.glob directory)) as [keyed | e] eqn:Hk;
    simpl in Hsort; [| discriminate].
  injection Hsort as <-.
  pose proof (with_keys_keys _ _ Hk) as Hkeys.
  rewrite <- (with_keys_names _ _ Hk).
  rewrite !filter_names_by_key.
  - now rewrite sort_filter_key.
  - exact Hkeys.
  - apply (Permutation_Forall (sort_perm keyed)). exact Hkeys.
Qed.

(** Two files with the number 1 around one with the number 0. *)
Lemma load_order_is_stable_witness :
  filter (has_key 1) ["antenna0.s2p"; "antenna01.s2p"; "antenna1.s2p"]%string
  = ["antenna01.s2p"; "antenna1.s2p"]%string.
Proof.
  exact (load_order_is_stable
           ["antenna01.s2p"; "antenna0.s2p"; "antenna1.s2p"]%string
           ["antenna0.s2p"; "antenna01.s2p"; "antenna1.s2p"]%string
           1%Z eq_refl).
Defined.

(** *** The analysis and the plot agree *)

(** X17.  The sample that the analysis reports for a network is one of the
    points the plot draws for it: whenever [nearest] returns an index, a
    frequency and a sample, the S11 trace of the network has, at that
    index, the point derived from that frequency and that sample. *)
Theorem nearest_point_on_trace :
  forall (ntwk : Network) (target_freq : R) (i : nat) (freq : R)
         (s11 : complex),
    nearest ntwk target_freq = Ok (i, freq, s11) ->
    (i < List.length (Skrf.f ntwk))%nat /\
    nth_error (trace ntwk P1 P1) i = Some (trace_point freq s11).
Proof.
  intros ntwk t i freq z H. unfold nearest in H.
  destruct (argmin (distances ntwk t)) as [idx | e]; simpl in H;
    [| discriminate].
  unfold getitem in H.
  destruct (nth_error (Skrf.f ntwk) idx) as [fr |] eqn:Hf; simpl in H;
    [| discriminate].
  destruct (nth_error (s_flat ntwk P1 P1) idx) as [z' |] eqn:Hs; simpl in H;
    [| discriminate].
  injection H as <- <- <-.
  split; [apply nth_error_Some; congruence |].
  unfold trace. rewrite nth_error_map.
  assert (Hc : nth_error (combine (Skrf.f ntwk) (s_flat ntwk P1 P1)) idx
               = Some (fr, z')).
  { revert idx Hf Hs.
    generalize (Skrf.f ntwk) as fs, (s_flat ntwk P1 P1) as zs.
    induction fs as [| x fs IH]; intros zs [| k] Hf Hs;
      destruct zs as [| y zs]; simpl in *; try discriminate.
    - injection Hf as <-. injection Hs as <-. reflexivity.
    - now apply IH. }
  rewrite Hc. reflexivity.
Qed.

(** The samples 1, 2, 3 Hz and the target 2.9 Hz. *)
Lemma nearest_point_on_trace_witness :
  (2 < 3)%nat /\
  nth_error
    (trace {| Skrf.f := [1; 2; 3];
              Skrf.s := repeat (Skrf.SMatrix (Complex (pos 1) (pos 0))
                                  (Complex (pos 0) (pos 0))
                                  (Complex (pos 0) (pos 0))
                                  (Complex (pos 1) (pos 0))) 3 |} P1 P1) 2
  = Some (trace_point 3 (Complex (pos 1) (pos 0))).
Proof.
  apply (nearest_point_on_trace
           {| Skrf.f := [1; 2; 3];
              Skrf.s := repeat (Skrf.SMatrix (Complex (pos 1) (pos 0))
                                  (Complex (pos 0) (pos 0))
                                  (Complex (pos 0) (pos 0))
                                  (Complex (pos 1) (pos 0))) 3 |}
           2.9 2%nat 3 (Complex (pos 1) (pos 0))).
  unfold nearest, distances. simpl.
  assert (H1 : Rabs (1 - 2.9) = 1.9) by (rewrite Rabs_left; lra).
  assert (H2 : Rabs (2 - 2.9) = 0.9) by (rewrite Rabs_left; lra).
  assert (H3 : Rabs (3 - 2.9) = 0.1) by (rewrite Rabs_pos_eq; lra).
  rewrite H1, H2, H3.
  destruct (Rlt_dec 0.9 1.9); [| lra].
  destruct (Rlt_dec 0.1 0.9); [| lra].
  reflexivity.
Defined.
